(** * ignis: the notification daemon (src/ignis/services/notifications.py)

    A shallow embedding of [Notification], [NotificationAction] and
    [NotificationService], and of the registry of [DBusService]
    (src/ignis/dbus.py), followed by the properties of the daemon that the
    specification states.

    Python objects live in a store and are named by reference, because
    the same [Notification] is held by [_notifications], by [_popups], by
    its own timer and by the closures connected to its signals.  The
    attributes of an object hold Python values, untyped, as the cache file
    or the bus supplied them.  A signal is emitted into a queue and
    delivered by the dispatch loop; an exception raised inside a handler is
    reported by the binding and does not reach the loop. *)

From Stdlib Require Import ZArith List String Bool Lia Sorted.
From stdpp Require Import base option list strings pretty gmap.
Import ListNotations.
Local Set Warnings "-register-all".
Local Open Scope string_scope.
Local Open Scope Z_scope.

(** ** Python values used by the service *)

(** A finite binary floating-point number [mantissa * 2 ^ exponent]
    ([time] is a POSIX timestamp). *)
Record pyfloat := { mantissa : Z; exponent : Z }.

(** The value tree [json.load] yields and [json.dump] consumes: [None],
    [bool], [int], [float], [str], [list] and [dict] with string keys.  A
    decoded object lists each of its keys once. *)
Inductive json :=
| JNull
| JBool (b : bool)
| JInt (z : Z)
| JFloat (f : pyfloat)
| JStr (s : string)
| JList (l : list json)
| JDict (kv : list (string * json)).

Inductive exn :=
| IndexError
| KeyError
| TypeError
| AttributeError
| OverflowError
| GLibError
| JSONDecodeError.

Inductive result (A : Type) :=
| Returned (a : A)
| Raised (e : exn).
Arguments Returned {A} a.
Arguments Raised {A} e.

(** ** dict keys

    A dict finds a key by hash and [==]: [1], [1.0] and [True] are one
    key, and so are [0], [0.0] and [False].  [pykey] has one value for each
    class of equal hashable values: [None], a whole number, a number that
    is not whole ([m * 2 ^ e] with [m] odd and [e] negative), a string. *)
Inductive pykey :=
| KNone
| KInt (z : Z)
| KFrac (m e : Z)
| KStr (s : string).

#[global] Instance pykey_eq_dec : EqDecision pykey.
Proof. solve_decision. Defined.

(** Halving an even mantissa while the exponent is negative. *)
Fixpoint halve (fuel : nat) (m e : Z) : Z * Z :=
  match fuel with
  | O => (m, e)
  | S fuel' =>
      if (e <? 0) && Z.even m then halve fuel' (m / 2) (e + 1) else (m, e)
  end.

Definition float_key (f : pyfloat) : pykey :=
  if 0 <=? exponent f then KInt (mantissa f * 2 ^ exponent f)
  else
    let (m, e) := halve (Z.to_nat (- exponent f)) (mantissa f) (exponent f) in
    if e =? 0 then KInt m else KFrac m e.

(** [hash(v)], together with the class of [v] under [==]; a list or a dict
    is unhashable ([None] stands for the TypeError). *)
Definition hash_key (v : json) : option pykey :=
  match v with
  | JNull => Some KNone
  | JBool b => Some (KInt (if b then 1 else 0))
  | JInt z => Some (KInt z)
  | JFloat f => Some (float_key f)
  | JStr s => Some (KStr s)
  | JList _ => None
  | JDict _ => None
  end.

(** ** dict: insertion-ordered *)

Module PyDict.
Section Dict.
Context {V : Type}.

Definition t := list (pykey * V).

  (** [d.get(k, None)] *)
Fixpoint get (k : pykey) (d : t) : option V :=
    match d with
    | [] => None
    | (k', v) :: d' => if decide (k' = k) then Some v else get k d'
    end.

  (** [d[k] = v]: an existing key keeps its position, a new key goes last. *)
Fixpoint set (k : pykey) (v : V) (d : t) : t :=
    match d with
    | [] => [(k, v)]
    | (k', v') :: d' =>
        if decide (k' = k) then (k', v) :: d' else (k', v') :: set k v d'
    end.

Fixpoint remove (k : pykey) (d : t) : t :=
    match d with
    | [] => []
    | (k', v) :: d' => if decide (k' = k) then d' else (k', v) :: remove k d'
    end.

  (** [d.pop(k)]: [None] stands for KeyError. *)
Definition pop (k : pykey) (d : t) : option t :=
    match get k d with
    | Some _ => Some (remove k d)
    | None => None
    end.

  (** [list(d.values())] and the keys, both in insertion order. *)
Definition values (d : t) : list V := map snd d.
Definition keys (d : t) : list pykey := map fst d.
End Dict.
Arguments t V : clear implicits.
End PyDict.

(** Lookup in a decoded JSON object. *)
Fixpoint jget (k : string) (kv : list (string * json)) : option json :=
  match kv with
  | [] => None
  | (k', v) :: kv' => if String.eqb k' k then Some v else jget k kv'
  end.

(** ** NotificationAction *)

Module NotificationAction.
  (** [_id] and [_label]; the references to the bus and to the owning
      notification serve [invoke] only. *)
Record t := { _id : string; _label : string }.
End NotificationAction.

(** ** D-Bus arguments of [Notify] *)

(** The ["image-data"] hint, signature (iiibiiay). *)
Record px_args := {
  px_width : Z;
  px_height : Z;
  px_rowstride : Z;
  px_has_alpha : bool;
  px_bits_per_sample : Z;
  px_channels : Z;
  px_data : list Z
}.

(** [hints], read at the two keys the service looks up: ["image-data"]
    and ["urgency"]. *)
Record Hints := {
  image_data : option px_args;
  urgency : option Z
}.

Record NotifyArgs := {
  app_name : string;
  replaces_id : Z;
  app_icon : string;
  summary : string;
  body : string;
  actions : list string;
  hints : Hints;
  timeout : Z
}.

(** What the environment answers during one call: the clock read by
    [datetime.now()] and whether GdkPixbuf builds and saves the image. *)
Record World := { now : pyfloat; savev_ok : bool }.

(** What the model takes from outside the sources: [CACHE_DIR] of the
    [ignis] package, and three answers of the Python runtime and of
    PyGObject that the service gets only for values of a hand-edited cache
    file: [repr] of a float, a list or a dict, [f + 1] for a float [f], and
    the number [GLib.Variant] packs into a [u] field from a value that is
    no [int] ([None]: it raises). *)
Record Platform := {
  CACHE_DIR : string;
  repr : json -> string;
  float_add_one : pyfloat -> pyfloat;
  variant_u : json -> option Z
}.

(** ** Notification *)

(** References to [Notification] objects: positions in the object store. *)
Abbreviation ref := nat (only parsing).

(** Handlers connected to a notification's "closed" signal. *)
Inductive closed_handler :=
| on_closed_close_notification             (* lambda x: self.__close_notification(x) *)
| on_closed_init (a : NotifyArgs) (id : json).   (* lambda x: _init(_id) *)

(** Handlers connected to a notification's "dismissed" signal. *)
Inductive dismissed_handler :=
| on_dismissed_dismiss_popup.              (* lambda x: self.__dismiss_popup(x) *)

Module Notification.
  (** The attributes that [__init__] assigns from its arguments hold the
      values passed, whatever their type; [_actions] is built by the
      constructor and [_popup] is a [bool] on every path. *)
Record t := {
    _id : json;
    _app_name : json;
    _icon : json;
    _summary : json;
    _body : json;
    _timeout : json;
    _time : json;
    _urgency : json;
    _popup : bool;
    _actions : list NotificationAction.t;
    closed_handlers : list closed_handler;
    dismissed_handlers : list dismissed_handler
  }.

  (** The [json] property. *)
Definition json (n : t) : json :=
    JDict [("id", _id n);
           ("app_name", _app_name n);
           ("icon", _icon n);
           ("summary", _summary n);
           ("body", _body n);
           ("actions",
             JList (flat_map (fun i => [JStr (NotificationAction._id i);
                                        JStr (NotificationAction._label i)])
                             (_actions n)));
           ("timeout", _timeout n);
           ("time", _time n);
           ("urgency", _urgency n)].

Definition set_popup (b : bool) (n : t) : t :=
    {| _id := _id n; _app_name := _app_name n; _icon := _icon n;
       _summary := _summary n; _body := _body n; _timeout := _timeout n;
       _time := _time n; _urgency := _urgency n; _popup := b;
       _actions := _actions n;
       closed_handlers := closed_handlers n;
       dismissed_handlers := dismissed_handlers n |}.

  (** [self.connect("closed", h)] *)
Definition connect_closed (h : closed_handler) (n : t) : t :=
    {| _id := _id n; _app_name := _app_name n; _icon := _icon n;
       _summary := _summary n; _body := _body n; _timeout := _timeout n;
       _time := _time n; _urgency := _urgency n; _popup := _popup n;
       _actions := _actions n;
       closed_handlers := closed_handlers n ++ [h];
       dismissed_handlers := dismissed_handlers n |}.

  (** [self.connect("dismissed", h)] *)
Definition connect_dismissed (h : dismissed_handler) (n : t) : t :=
    {| _id := _id n; _app_name := _app_name n; _icon := _icon n;
       _summary := _summary n; _body := _body n; _timeout := _timeout n;
       _time := _time n; _urgency := _urgency n; _popup := _popup n;
       _actions := _actions n;
       closed_handlers := closed_handlers n;
       dismissed_handlers := dismissed_handlers n ++ [h] |}.
End Notification.

(** ** The process state *)

(** What the service emits. *)
Inductive signal :=
| closed (r : ref)                      (* Notification "closed" *)
| dismissed (r : ref)                   (* Notification "dismissed" *)
| notify_popup (r : ref)                (* notification.notify("popup") *)
| new_popup (r : ref)                   (* service "new_popup" *)
| notified (r : ref)                    (* service "notified" *)
| notify_popups                         (* self.notify("popups") *)
| notify_notifications                  (* self.notify("notifications") *)
| NotificationClosed (id reason : Z)    (* D-Bus signal, payload (uu) *)
| logger_warning.                       (* "Notification history file is corrupted! Cleaning..." *)

(** The attributes of [NotificationService] ([_id], [_notifications],
    [_popups]), the [Notification] objects the process has built, the three
    options it reads from the options service, the cache file
    notifications.json ([None]: missing or not JSON text), the image files
    written under the cache directory, the signals emitted so far, in the
    order of the calls that emitted them, and those among them that wait
    for delivery. *)
Record State := {
  _id : json;
  _notifications : PyDict.t ref;
  _popups : PyDict.t ref;
  objects : list Notification.t;
  dnd : bool;
  popup_timeout : Z;
  max_popups_count : Z;
  cache_file : option json;
  images : list (string * px_args);
  emitted : list signal;
  pending : list signal
}.

Definition set_id (v : json) (s : State) : State :=
  {| _id := v; _notifications := _notifications s; _popups := _popups s;
     objects := objects s; dnd := dnd s; popup_timeout := popup_timeout s;
     max_popups_count := max_popups_count s; cache_file := cache_file s;
     images := images s; emitted := emitted s; pending := pending s |}.

Definition set_notifications (v : PyDict.t ref) (s : State) : State :=
  {| _id := _id s; _notifications := v; _popups := _popups s;
     objects := objects s; dnd := dnd s; popup_timeout := popup_timeout s;
     max_popups_count := max_popups_count s; cache_file := cache_file s;
     images := images s; emitted := emitted s; pending := pending s |}.

Definition set_popups (v : PyDict.t ref) (s : State) : State :=
  {| _id := _id s; _notifications := _notifications s; _popups := v;
     objects := objects s; dnd := dnd s; popup_timeout := popup_timeout s;
     max_popups_count := max_popups_count s; cache_file := cache_file s;
     images := images s; emitted := emitted s; pending := pending s |}.

Definition set_objects (v : list Notification.t) (s : State) : State :=
  {| _id := _id s; _notifications := _notifications s; _popups := _popups s;
     objects := v; dnd := dnd s; popup_timeout := popup_timeout s;
     max_popups_count := max_popups_count s; cache_file := cache_file s;
     images := images s; emitted := emitted s; pending := pending s |}.

Definition set_dnd (v : bool) (s : State) : State :=
  {| _id := _id s; _notifications := _notifications s; _popups := _popups s;
     objects := objects s; dnd := v; popup_timeout := popup_timeout s;
     max_popups_count := max_popups_count s; cache_file := cache_file s;
     images := images s; emitted := emitted s; pending := pending s |}.

Definition set_popup_timeout (v : Z) (s : State) : State :=
  {| _id := _id s; _notifications := _notifications s; _popups := _popups s;
     objects := objects s; dnd := dnd s; popup_timeout := v;
     max_popups_count := max_popups_count s; cache_file := cache_file s;
     images := images s; emitted := emitted s; pending := pending s |}.

Definition set_max_popups_count (v : Z) (s : State) : State :=
  {| _id := _id s; _notifications := _notifications s; _popups := _popups s;
     objects := objects s; dnd := dnd s; popup_timeout := popup_timeout s;
     max_popups_count := v; cache_file := cache_file s;
     images := images s; emitted := emitted s; pending := pending s |}.

Definition set_cache_file (v : option json) (s : State) : State :=
  {| _id := _id s; _notifications := _notifications s; _popups := _popups s;
     objects := objects s; dnd := dnd s; popup_timeout := popup_timeout s;
     max_popups_count := max_popups_count s; cache_file := v;
     images := images s; emitted := emitted s; pending := pending s |}.

Definition set_images (v : list (string * px_args)) (s : State) : State :=
  {| _id := _id s; _notifications := _notifications s; _popups := _popups s;
     objects := objects s; dnd := dnd s; popup_timeout := popup_timeout s;
     max_popups_count := max_popups_count s; cache_file := cache_file s;
     images := v; emitted := emitted s; pending := pending s |}.

Definition set_pending (v : list signal) (s : State) : State :=
  {| _id := _id s; _notifications := _notifications s; _popups := _popups s;
     objects := objects s; dnd := dnd s; popup_timeout := popup_timeout s;
     max_popups_count := max_popups_count s; cache_file := cache_file s;
     images := images s; emitted := emitted s; pending := v |}.

(** Modelled from the spec: [IgnisGObject.emit] and [IgnisGObject.notify]
    (ignis/gobject.py, which is not among the sources).  The specification
    has one thread that runs the dispatch loop and serializes every
    mutation of the registry (section 5), and has the replacement of
    [Notify] built only when the close of the old notification completes
    (sections 4.3 and 5), although [__Notify] connects the closure that
    builds it after it has called [close()].  So [emit] does not run the
    handlers: it hands the signal to the loop, which delivers the signals
    one at a time, in the order they were emitted, once the call that
    emitted them has returned ([deliver] below). *)
Definition emit (e : signal) (s : State) : State :=
  {| _id := _id s; _notifications := _notifications s; _popups := _popups s;
     objects := objects s; dnd := dnd s; popup_timeout := popup_timeout s;
     max_popups_count := max_popups_count s; cache_file := cache_file s;
     images := images s; emitted := emitted s ++ [e]; pending := pending s ++ [e] |}.

(** [DBusService.emit_signal] and [logger.warning] act at once: the signal
    goes out on the bus, the line goes to the log. *)
Definition emit_signal (e : signal) (s : State) : State :=
  {| _id := _id s; _notifications := _notifications s; _popups := _popups s;
     objects := objects s; dnd := dnd s; popup_timeout := popup_timeout s;
     max_popups_count := max_popups_count s; cache_file := cache_file s;
     images := images s; emitted := emitted s ++ [e]; pending := pending s |}.

(** An [int] fits a [u] field when it has 32 unsigned bits; [GLib.Variant]
    raises OverflowError otherwise. *)
Definition is_uint32 (z : Z) : bool := (0 <=? z) && (z <? 2 ^ 32).

(** ** NotificationService: properties and private methods *)

(** The [notifications] and [popups] properties: the objects, as references. *)
Definition notifications (s : State) : list ref := PyDict.values (_notifications s).
Definition popups (s : State) : list ref := PyDict.values (_popups s).

(** [get_notification], called with an [int] that came over the bus. *)
Definition get_notification (id : Z) (s : State) : option ref :=
  PyDict.get (KInt id) (_notifications s).

(** [__dismiss_popup]; it runs as a signal handler, so the TypeError of an
    unhashable id ends it without reaching the loop. *)
Definition dismiss_popup (r : ref) (s : State) : State :=
  match objects s !! r with
  | Some n =>
      match hash_key (Notification._id n) with
      | Some k =>
          match PyDict.get k (_popups s) with
          | Some _ => emit notify_popups (set_popups (PyDict.remove k (_popups s)) s)
          | None => s
          end
      | None => s
      end
  | None => s
  end.

(** [Notification.dismiss] on the object [r]. *)
Definition Notification_dismiss (r : ref) (s : State) : State :=
  match objects s !! r with
  | Some n =>
      if Notification._popup n then
        emit (notify_popup r)
          (emit (dismissed r)
             (set_objects (<[r := Notification.set_popup false n]> (objects s)) s))
      else s
  | None => s
  end.

(** [Notification.close] on the object [r]. *)
Definition Notification_close (r : ref) (s : State) : State :=
  match objects s !! r with
  | Some _ => emit (closed r) s
  | None => s
  end.

(** The [data] dictionary of [__sync]. *)
Definition sync_data (id : json) (ns : list Notification.t) : json :=
  JDict [("id", id); ("notifications", JList (map Notification.json ns))].

(** [__sync] *)
Definition sync (s : State) : State :=
  set_cache_file
    (Some (sync_data (_id s) (omap (fun r => objects s !! r) (notifications s)))) s.

(** [__add_notification]: the two handlers are connected before the id
    is hashed for the assignment. *)
Definition add_notification (r : ref) (s : State) : result unit * State :=
  match objects s !! r with
  | Some n =>
      let n' := Notification.connect_dismissed on_dismissed_dismiss_popup
                  (Notification.connect_closed on_closed_close_notification n) in
      let s1 := set_objects (<[r := n']> (objects s)) s in
      match hash_key (Notification._id n) with
      | Some k => (Returned tt, set_notifications (PyDict.set k r (_notifications s)) s1)
      | None => (Raised TypeError, s1)
      end
  | None => (Returned tt, s)
  end.

(** Writing a file of the image directory. *)
Fixpoint write_image (path : string) (px : px_args) (fs : list (string * px_args))
  : list (string * px_args) :=
  match fs with
  | [] => [(path, px)]
  | (p, old) :: fs' =>
      if String.eqb p path then (p, px) :: fs' else (p, old) :: write_image path px fs'
  end.

(** Reading a file of the image directory. *)
Fixpoint read_image (path : string) (fs : list (string * px_args)) : option px_args :=
  match fs with
  | [] => None
  | (p, px) :: fs' => if String.eqb p path then Some px else read_image path fs'
  end.

(** [__save_pixbuf] *)
Definition save_pixbuf (w : World) (px : px_args) (save_path : string) (s : State)
  : result unit * State :=
  if savev_ok w then (Returned tt, set_images (write_image save_path px (images s)) s)
  else (Raised GLibError, s).

(** A new object enters the store and gets the next reference. *)
Definition new_object (n : Notification.t) (s : State) : ref * State :=
  (length (objects s), set_objects (objects s ++ [n]) s).

Definition NOTIFICATIONS_EMPTY_CACHE_FILE : json :=
  JDict [("id", JInt 0); ("notifications", JList [])].

(** The keyword parameters of [Notification.__init__] that a record of the
    file supplies; [popup] and [dbus] are passed by the loader itself. *)
Definition init_params : list string :=
  ["id"; "app_name"; "icon"; "summary"; "body"; "actions"; "urgency";
   "timeout"; "time"].

(** What a [for] loop over a decoded value visits: the items of a list,
    the keys of an object, the characters of a string; other values are
    not iterable. *)
Definition py_iter (j : json) : option (list json) :=
  match j with
  | JList l => Some l
  | JDict kv => Some (map (fun p => JStr (fst p)) kv)
  | JStr s => Some (map (fun c => JStr (String c EmptyString)) (list_ascii_of_string s))
  | _ => None
  end.

(** The eviction block of [__init_notification]: when [len(self.popups)]
    has reached [max_popups_count], and that option is not 0, the last
    element of the [popups] list is dismissed; indexing an empty list
    raises. *)
Definition make_room (s : State) : result unit * State :=
  if Z.of_nat (length (popups s)) >=? max_popups_count s then
    if negb (max_popups_count s =? 0) then
      match last (popups s) with
      | Some last_popup => (Returned tt, Notification_dismiss last_popup s)
      | None => (Raised IndexError, s)
      end
    else (Returned tt, s)
  else (Returned tt, s).

(** The [if notification.popup:] block of [__init_notification]. *)
Definition show_popup (r : ref) (notification : Notification.t) (s : State)
  : result unit * State :=
  if Notification._popup notification then
    match hash_key (Notification._id notification) with
    | Some k =>
        (Returned tt,
         emit notify_popups
           (emit (new_popup r) (set_popups (PyDict.set k r (_popups s)) s)))
    | None => (Raised TypeError, s)
    end
  else (Returned tt, s).

Definition connect_closed (r : ref) (h : closed_handler) (s : State) : State :=
  match objects s !! r with
  | Some n => set_objects (<[r := Notification.connect_closed h n]> (objects s)) s
  | None => s
  end.

(** [__CloseNotification] *)
Definition CloseNotification (id : Z) (s : State) : State :=
  match get_notification id s with
  | Some notification => Notification_close notification s
  | None => s
  end.

(** [clear_all]: the list is taken once, before the first close. *)
Definition clear_all (s : State) : State :=
  fold_left (fun st r => Notification_close r st) (notifications s) s.

(** The [popup] property of the object [r]. *)
Definition popup (r : ref) (s : State) : bool :=
  match objects s !! r with
  | Some n => Notification._popup n
  | None => false
  end.

(** ** What depends on the platform *)

Section Daemon.

Variable env : Platform.

Definition NOTIFICATIONS_CACHE_DIR : string := CACHE_DIR env +:+ "/notifications".
Definition NOTIFICATIONS_IMAGE_DATA : string := NOTIFICATIONS_CACHE_DIR +:+ "/images".

(** [str(v)] *)
Definition py_str (v : json) : string :=
  match v with
  | JStr s => s
  | JInt z => pretty z
  | JNull => "None"
  | JBool true => "True"
  | JBool false => "False"
  | _ => repr env v
  end.

(** [v + 1]: a [bool] is an [int]; [None], a string, a list and a dict
    raise TypeError. *)
Definition py_add_one (v : json) : result json :=
  match v with
  | JInt z => Returned (JInt (z + 1))
  | JBool b => Returned (JInt ((if b then 1 else 0) + 1))
  | JFloat f => Returned (JFloat (float_add_one env f))
  | _ => Raised TypeError
  end.

(** The [u] field that [GLib.Variant] packs from [v]. *)
Definition pack_u (v : json) : result Z :=
  match v with
  | JInt z => if is_uint32 z then Returned z else Raised OverflowError
  | _ =>
      match variant_u env v with
      | Some z => Returned z
      | None => Raised TypeError
      end
  end.

(** The comprehension of [Notification.__init__] over the items of
    [actions]: pairs [str(actions[i]), str(actions[i + 1])] for i = 0, 2,
    4, ...; an odd length makes [actions[i + 1]] raise. *)
Fixpoint pair_up (items : list json) : result (list NotificationAction.t) :=
  match items with
  | [] => Returned []
  | [_] => Raised IndexError
  | a :: b :: rest =>
      match pair_up rest with
      | Returned l =>
          Returned ({| NotificationAction._id := py_str a;
                       NotificationAction._label := py_str b |} :: l)
      | Raised e => Raised e
      end
  end.

(** [len(actions)] and [actions[i]] on the value passed: a list gives its
    items and a string its characters; a dict that is not empty has no
    key 0; other values have no length. *)
Definition make_actions (actions : json) : result (list NotificationAction.t) :=
  match actions with
  | JList l => pair_up l
  | JStr s => pair_up (map (fun c => JStr (String c EmptyString)) (list_ascii_of_string s))
  | JDict [] => Returned []
  | JDict (_ :: _) => Raised KeyError
  | _ => Raised TypeError
  end.

(** [Notification.__init__]; a new object has no handler connected.

    Modelled from the spec: [Utils.Timeout] (ignis/utils, which is not
    among the sources).  [Utils.Timeout(timeout, self.dismiss)] arms the
    timer of section 3, which calls [dismiss] on the object once; arming it
    does not fail.  The timer that fires is the operation [do_dismiss] of
    [step] below. *)
Definition Notification_init (id app_name icon summary body actions urgency timeout
                                time : json) (popup : bool) : result Notification.t :=
  match make_actions actions with
  | Returned acts =>
      Returned {| Notification._id := id; Notification._app_name := app_name;
                  Notification._icon := icon; Notification._summary := summary;
                  Notification._body := body; Notification._timeout := timeout;
                  Notification._time := time; Notification._urgency := urgency;
                  Notification._popup := popup; Notification._actions := acts;
                  Notification.closed_handlers := [];
                  Notification.dismissed_handlers := [] |}
  | Raised e => Raised e
  end.

(** [__close_notification]; it runs as a signal handler, so the KeyError
    of [pop] and the exception of the variant end it without reaching the
    loop. *)
Definition close_notification (r : ref) (s : State) : State :=
  match objects s !! r with
  | Some n =>
      match hash_key (Notification._id n) with
      | Some k =>
          match PyDict.pop k (_notifications s) with
          | Some d =>
              let s1 := set_notifications d s in
              let s2 := if Notification._popup n then Notification_dismiss r s1 else s1 in
              let s3 := sync s2 in
              match pack_u (Notification._id n) with
              | Returned id => emit notify_notifications (emit_signal (NotificationClosed id 2) s3)
              | Raised _ => s3
              end
          | None => s
          end
      | None => s
      end
  | None => s
  end.

(** ** Loading the cache file *)

(** The constructor call of the loader, which unpacks the record [n] into
    keyword arguments next to [popup=False] and [dbus]: [n] has to be a
    mapping whose keys are parameters of [__init__] other than [popup] and
    [dbus], none of them missing.  The values are passed as they are. *)
Definition Notification_from_record (n : json) : result Notification.t :=
  match n with
  | JDict kv =>
      if forallb (fun k => existsb (String.eqb k) init_params) (map fst kv) then
        match jget "id" kv, jget "app_name" kv, jget "icon" kv, jget "summary" kv,
              jget "body" kv, jget "actions" kv, jget "urgency" kv, jget "timeout" kv,
              jget "time" kv with
        | Some id, Some app_name, Some icon, Some summary, Some body,
          Some actions, Some urgency, Some timeout, Some time =>
            Notification_init id app_name icon summary body actions urgency
              timeout time false
        | _, _, _, _, _, _, _, _, _ => Raised TypeError
        end
      else Raised TypeError
  | _ => Raised TypeError
  end.

(** The [for] loop of [__load_notifications]. *)
Fixpoint load_each (l : list json) (s : State) : result unit * State :=
  match l with
  | [] => (Returned tt, s)
  | n :: l' =>
      match Notification_from_record n with
      | Returned notification =>
          let (r, s1) := new_object notification s in
          match add_notification r s1 with
          | (Returned _, s2) => load_each l' s2
          | (Raised e, s2) => (Raised e, s2)
          end
      | Raised e => (Raised e, s)
      end
  end.

(** The [try] block of [__load_notifications]; the counter takes the value
    under ["id"] as it is. *)
Definition try_load (s : State) : result unit * State :=
  match cache_file s with
  | None => (Raised JSONDecodeError, s)
  | Some (JDict log_file) =>
      match py_iter (default (JList []) (jget "notifications" log_file)) with
      | Some l =>
          match load_each l s with
          | (Returned _, s1) =>
              (Returned tt, set_id (default (JInt 0) (jget "id" log_file)) s1)
          | (Raised e, s1) => (Raised e, s1)
          end
      | None => (Raised TypeError, s)
      end
  | Some _ => (Raised AttributeError, s)
  end.

(** [__load_notifications] *)
Definition load_notifications (s : State) : State :=
  match try_load s with
  | (Returned _, s1) => s1
  | (Raised _, s1) =>
      set_cache_file (Some NOTIFICATIONS_EMPTY_CACHE_FILE) (emit_signal logger_warning s1)
  end.

(** [NotificationService.__init__], given the values the options service
    holds for the three options (created with defaults False, 5000 and 3
    when absent), the cache file and the image directory it finds. *)
Definition NotificationService_init (dnd0 : bool) (popup_timeout0 max_popups_count0 : Z)
    (file : option json) (imgs : list (string * px_args)) : State :=
  load_notifications
    {| _id := JInt 0; _notifications := []; _popups := []; objects := [];
       dnd := dnd0; popup_timeout := popup_timeout0;
       max_popups_count := max_popups_count0;
       cache_file := file; images := imgs; emitted := []; pending := [] |}.

(** ** The D-Bus methods *)

(** The statements of [__init_notification] that follow the constructor
    call: the eviction, the popup, the collection, the file, the signals. *)
Definition init_tail (r : ref) (notification : Notification.t) (s : State)
  : result unit * State :=
  match make_room s with
  | (Raised e, s1) => (Raised e, s1)
  | (Returned _, s1) =>
      match show_popup r notification s1 with
      | (Raised e, s2) => (Raised e, s2)
      | (Returned _, s2) =>
          match add_notification r s2 with
          | (Raised e, s3) => (Raised e, s3)
          | (Returned _, s3) =>
              (Returned tt, emit notify_notifications (emit (notified r) (sync s3)))
          end
      end
  end.

(** [__init_notification].  An exception leaves the state as the
    statements before it made it. *)
Definition init_notification (w : World) (id : json) (a : NotifyArgs) (s : State)
  : result unit * State :=
  let icon := JStr (app_icon a) in
  let '(icon, saved) :=
    match image_data (hints a) with
    | Some px =>
        let path := NOTIFICATIONS_IMAGE_DATA +:+ "/" +:+ py_str id in
        (JStr path, save_pixbuf w px path s)
    | None => (icon, (Returned tt, s))
    end in
  match saved with
  | (Raised e, s1) => (Raised e, s1)
  | (Returned _, s1) =>
      match Notification_init id (JStr (app_name a)) icon (JStr (summary a))
              (JStr (body a)) (JList (map JStr (actions a)))
              (JInt (default 1 (urgency (hints a))))
              (JInt (if timeout a =? -1 then popup_timeout s1 else timeout a))
              (JFloat (now w)) (negb (dnd s1)) with
      | Raised e => (Raised e, s1)
      | Returned notification =>
          let (r, s2) := new_object notification s1 in
          init_tail r notification s2
      end
  end.

(** The reply [GLib.Variant("(u)", (_id,))]. *)
Definition reply_u (id : json) (s : State) : result Z * State :=
  match pack_u id with
  | Returned z => (Returned z, s)
  | Raised e => (Raised e, s)
  end.

(** [__Notify] *)
Definition Notify (w : World) (a : NotifyArgs) (s : State) : result Z * State :=
  if replaces_id a =? 0 then
    match py_add_one (_id s) with
    | Returned id =>
        match init_notification w id a (set_id id s) with
        | (Returned _, s1) => reply_u id s1
        | (Raised e, s1) => (Raised e, s1)
        end
    | Raised e => (Raised e, s)
    end
  else
    let id := JInt (replaces_id a) in
    match get_notification (replaces_id a) s with
    | Some old_notification =>
        let s1 := Notification_close old_notification s in
        reply_u id (connect_closed old_notification (on_closed_init a id) s1)
    | None =>
        match init_notification w id a s with
        | (Returned _, s1) => reply_u id s1
        | (Raised e, s1) => (Raised e, s1)
        end
    end.

(** ** The dispatch loop *)

Definition run_closed_handler (w : World) (r : ref) (h : closed_handler) (s : State) : State :=
  match h with
  | on_closed_close_notification => close_notification r s
  | on_closed_init a id => snd (init_notification w id a s)
  end.

Definition run_dismissed_handler (r : ref) (h : dismissed_handler) (s : State) : State :=
  match h with
  | on_dismissed_dismiss_popup => dismiss_popup r s
  end.

(** Modelled from the spec: the delivery of a signal by the dispatch loop
    (ignis/gobject.py and the GLib main loop behind it, which are not among
    the sources; sections 4.3 and 5 of the specification).  The loop takes
    the oldest signal that waits and runs the handlers connected to it at
    that moment, in connection order.  The service connects handlers to
    "closed" and "dismissed" of its notifications only; the handlers of
    the other signals belong to the shell.  [w] is what the environment
    answers while the handlers run. *)
Definition deliver (w : World) (s : State) : State :=
  match pending s with
  | [] => s
  | e :: q =>
      let s1 := set_pending q s in
      match e with
      | closed r =>
          match objects s1 !! r with
          | Some n =>
              fold_left (fun st h => run_closed_handler w r h st)
                        (Notification.closed_handlers n) s1
          | None => s1
          end
      | dismissed r =>
          match objects s1 !! r with
          | Some n =>
              fold_left (fun st h => run_dismissed_handler r h st)
                        (Notification.dismissed_handlers n) s1
          | None => s1
          end
      | _ => s1
      end
  end.

(** Several deliveries in a row, one world for each. *)
Definition deliver_each (ws : list World) (s : State) : State :=
  fold_left (fun st w => deliver w st) ws s.

(** ** Runs of the daemon *)

(** What can happen to a running daemon: a D-Bus call, a call of the
    public methods by the shell that holds the objects, a timer that
    fires, the loop that delivers a signal, a write to one of the
    options. *)
Inductive op :=
| do_Notify (a : NotifyArgs)
| do_CloseNotification (id : Z)
| do_clear_all
| do_close (r : ref)
| do_dismiss (r : ref)
| do_deliver
| do_set_dnd (v : bool)
| do_set_popup_timeout (v : Z)
| do_set_max_popups_count (v : Z).

Definition step (w : World) (o : op) (s : State) : State :=
  match o with
  | do_Notify a => snd (Notify w a s)
  | do_CloseNotification id => CloseNotification id s
  | do_clear_all => clear_all s
  | do_close r => Notification_close r s
  | do_dismiss r => Notification_dismiss r s
  | do_deliver => deliver w s
  | do_set_dnd v => set_dnd v s
  | do_set_popup_timeout v => set_popup_timeout v s
  | do_set_max_popups_count v => set_max_popups_count v s
  end.

Inductive reachable : State -> Prop :=
| reachable_init dnd0 popup_timeout0 max_popups_count0 file imgs :
    reachable (NotificationService_init dnd0 popup_timeout0 max_popups_count0 file imgs)
| reachable_step w o s :
    reachable s -> reachable (step w o s).

(** The ids a run of [Notify] calls replies with, and the state it ends in. *)
Fixpoint Notify_all (calls : list (World * NotifyArgs)) (s : State) : list Z * State :=
  match calls with
  | [] => ([], s)
  | (w, a) :: rest =>
      match Notify w a s with
      | (Returned id, s1) => let (ids, s2) := Notify_all rest s1 in (id :: ids, s2)
      | (Raised _, s1) => Notify_all rest s1
      end
  end.

End Daemon.

(** ** DBusService (src/ignis/dbus.py)

    The registry of callables behind a D-Bus object.  [M] and [P] are the
    callables registered as methods and as properties. *)

Inductive dbus_error :=
| DBusMethodNotFoundError (method_name : string)
| DBusPropertyNotFoundError (property_name : string).

Module DBusService.
Section Service.
Context {M P : Type}.

Record t := { _methods : gmap string M; _properties : gmap string P }.

(** [__init__]: both dictionaries start empty. *)
Definition init : t := {| _methods := ∅; _properties := ∅ |}.

(** [register_dbus_method]: [self._methods[name] = method] *)
Definition register_dbus_method (name : string) (method : M) (d : t) : t :=
  {| _methods := <[name := method]> (_methods d); _properties := _properties d |}.

(** [register_dbus_property]: [self._properties[name] = method] *)
Definition register_dbus_property (name : string) (method : P) (d : t) : t :=
  {| _methods := _methods d; _properties := <[name := method]> (_properties d) |}.

(** [__handle_method_call], up to the thread task: the callable that will
    be called with the unpacked parameters, or the exception raised. *)
Definition handle_method_call (d : t) (method_name : string) : M + dbus_error :=
  match _methods d !! method_name with
  | Some func => inl func
  | None => inr (DBusMethodNotFoundError method_name)
  end.

(** [__handle_get_property]: the callable whose result is returned, or
    the exception raised. *)
Definition handle_get_property (d : t) (value : string) : P + dbus_error :=
  match _properties d !! value with
  | Some func => inl func
  | None => inr (DBusPropertyNotFoundError value)
  end.
End Service.
Arguments t M P : clear implicits.
End DBusService.

(** The four methods of [NotificationService]. *)
Inductive dbus_method :=
| method_GetServerInformation
| method_GetCapabilities
| method_CloseNotification
| method_Notify.

(** The registrations of [NotificationService.__init__], in its order; it
    registers no property. *)
Definition NotificationService_dbus : DBusService.t dbus_method Empty_set :=
  DBusService.register_dbus_method "Notify" method_Notify
    (DBusService.register_dbus_method "CloseNotification" method_CloseNotification
       (DBusService.register_dbus_method "GetCapabilities" method_GetCapabilities
          (DBusService.register_dbus_method "GetServerInformation"
             method_GetServerInformation DBusService.init))).

(** ** Method calls from the bus *)

(** The replies, as GLib variants: (ssss), (as) and (u). *)
Inductive variant :=
| Variant_ssss (name vendor version spec_version : string)
| Variant_as (capabilities : list string)
| Variant_u (id : Z).

(** The unpacked parameters of a call. *)
Inductive dbus_params :=
| params_none
| params_CloseNotification (id : Z)
| params_Notify (a : NotifyArgs).

(** [__GetServerInformation] *)
Definition GetServerInformation : variant :=
  Variant_ssss "Ignis Notifications service" "linkfrg" "1.0" "1.2".

(** [__GetCapabilities] *)
Definition GetCapabilities : variant :=
  Variant_as ["actions"; "body"; "icon-static"; "persistence"].

(** [callback(func, unpacked_params)] of [__handle_method_call]: the
    callable runs on the unpacked parameters and its result is the reply.
    The first two methods take any parameters; the other two have the
    parameters of their signature. *)
Definition call_method (env : Platform) (w : World) (func : dbus_method)
    (p : dbus_params) (s : State) : result (option variant) * State :=
  match func, p with
  | method_GetServerInformation, _ => (Returned (Some GetServerInformation), s)
  | method_GetCapabilities, _ => (Returned (Some GetCapabilities), s)
  | method_CloseNotification, params_CloseNotification id =>
      (Returned None, CloseNotification id s)
  | method_Notify, params_Notify a =>
      match Notify env w a s with
      | (Returned id, s') => (Returned (Some (Variant_u id)), s')
      | (Raised e, s') => (Raised e, s')
      end
  | _, _ => (Raised TypeError, s)
  end.

(** A method call that reaches the object: the lookup of
    [__handle_method_call], then, once the parameters are unpacked, the
    callback. *)
Definition method_call (env : Platform) (w : World) (method_name : string)
    (p : dbus_params) (s : State) : (result (option variant) + dbus_error) * State :=
  match DBusService.handle_method_call NotificationService_dbus method_name with
  | inl func => let (r, s') := call_method env w func p s in (inl r, s')
  | inr e => (inr e, s)
  end.

(** ** Observations and invariants used in the statements *)

(** How often the "dismissed" signal of [r] occurs in a list of signals. *)
Definition is_dismissed (r : ref) (e : signal) : bool :=
  match e with
  | dismissed r' => Nat.eqb r' r
  | _ => false
  end.

Definition count_dismissed (r : ref) (tr : list signal) : nat :=
  length (List.filter (is_dismissed r) tr).

(** The entries of the [popups] list that are popups still. *)
Definition shown_popups (s : State) : list ref :=
  List.filter (fun r => popup r s) (popups s).

(** The id of a notification as a key of the two dictionaries ([None]: it
    is unhashable). *)
Definition Notification_key (n : Notification.t) : option pykey :=
  hash_key (Notification._id n).

(** The fields of a notification that the cache file keeps. *)
Definition persisted (n : Notification.t) :=
  (Notification._id n, Notification._app_name n, Notification._icon n,
   Notification._summary n, Notification._body n, Notification._timeout n,
   Notification._time n, Notification._urgency n, Notification._actions n).

(** How the objects of [s] look in a later state [s']: each is still
    there, with the fields it was built with, and has not become a popup
    again. *)
Definition persists (s s' : State) : Prop :=
  forall (r : ref) n, objects s !! r = Some n ->
    exists n', objects s' !! r = Some n' /\ persisted n' = persisted n /\
               (Notification._popup n = false -> Notification._popup n' = false).

(** The same, for the objects whose reference satisfies [P], which also
    have the handlers they had. *)
Definition evolves_on (P : ref -> Prop) (s s' : State) : Prop :=
  forall (r : ref) n, P r -> objects s !! r = Some n ->
    exists n', objects s' !! r = Some n' /\ persisted n' = persisted n /\
               (Notification._popup n = false -> Notification._popup n' = false) /\
               Notification.closed_handlers n' = Notification.closed_handlers n /\
               Notification.dismissed_handlers n' = Notification.dismissed_handlers n.

Definition evolves (s s' : State) : Prop := evolves_on (fun _ => True) s s'.

(** An entry of [_notifications]: the key is the id of the object, as a
    dict hashes it, and the object has the two handlers of
    [__add_notification] connected, before any other. *)
Definition notification_ok (s : State) (k : pykey) (r : ref) : Prop :=
  exists n, objects s !! r = Some n /\ hash_key (Notification._id n) = Some k /\
            (exists hs, Notification.closed_handlers n =
                          on_closed_close_notification :: hs) /\
            Notification.dismissed_handlers n = [on_dismissed_dismiss_popup].

Definition notifications_inv (s : State) : Prop :=
  NoDup (PyDict.keys (_notifications s)) /\
  forall k r, In (k, r) (_notifications s) -> notification_ok s k r.

(** An entry of [_popups]: the key is the id of the object. *)
Definition popup_ok (s : State) (k : pykey) (r : ref) : Prop :=
  exists n, objects s !! r = Some n /\ hash_key (Notification._id n) = Some k.

Definition popups_inv (s : State) : Prop :=
  NoDup (PyDict.keys (_popups s)) /\
  forall k r, In (k, r) (_popups s) -> popup_ok s k r.

Definition inv (s : State) : Prop := notifications_inv s /\ popups_inv s.

(** The state after the first statements of [__init_notification]: the
    image of the hints, when they carry one, is in its file. *)
Definition image_saved (env : Platform) (id : json) (a : NotifyArgs) (s : State) : State :=
  match image_data (hints a) with
  | Some px =>
      set_images
        (write_image (NOTIFICATIONS_IMAGE_DATA env +:+ "/" +:+ py_str env id) px
           (images s)) s
  | None => s
  end.

(** The object that the constructor call of [__init_notification] makes
    from the arguments of [Notify], [acts] being the actions it pairs up. *)
Definition built_notification (env : Platform) (w : World) (id : json) (a : NotifyArgs)
    (s : State) (acts : list NotificationAction.t) : Notification.t :=
  {| Notification._id := id;
     Notification._app_name := JStr (app_name a);
     Notification._icon :=
       match image_data (hints a) with
       | Some _ => JStr (NOTIFICATIONS_IMAGE_DATA env +:+ "/" +:+ py_str env id)
       | None => JStr (app_icon a)
       end;
     Notification._summary := JStr (summary a);
     Notification._body := JStr (body a);
     Notification._timeout :=
       JInt (if timeout a =? -1 then popup_timeout s else timeout a);
     Notification._time := JFloat (now w);
     Notification._urgency := JInt (default 1 (urgency (hints a)));
     Notification._popup := negb (dnd s);
     Notification._actions := acts;
     Notification.closed_handlers := [];
     Notification.dismissed_handlers := [] |}.

(** The options, which only their setters write. *)
Definition same_options (s s' : State) : Prop :=
  dnd s' = dnd s /\ popup_timeout s' = popup_timeout s /\
  max_popups_count s' = max_popups_count s.

(** The counter and the options, which only [Notify] and the setters
    write. *)
Definition stable (s s' : State) : Prop :=
  _id s' = _id s /\ same_options s s'.

(** Signals are only added: [s'] has emitted what [s] had and more, and
    what waited in [s] waits in [s'], in front of what has come since. *)
Definition grows (s s' : State) : Prop :=
  (exists tr, emitted s' = emitted s ++ tr)%list /\
  (exists tr, pending s' = pending s ++ tr)%list.

(** The objects of the full collection, in the order of [notifications]. *)
Definition notification_objects (s : State) : list Notification.t :=
  omap (fun r => objects s !! r) (notifications s).

(** The cache file holds what [__sync] writes for the state. *)
Definition file_in_sync (s : State) : Prop :=
  cache_file s = Some (sync_data (_id s) (notification_objects s)).

(** A counter as a number, when it is an [int] (a [bool] is one). *)
Definition as_int (v : json) : option Z :=
  match v with
  | JInt z => Some z
  | JBool b => Some (if b then 1 else 0)
  | _ => None
  end.

Definition is_float (v : json) : bool :=
  match v with
  | JFloat _ => true
  | _ => false
  end.

(** ** Sample inputs

    Concrete values on which the statements below are instantiated. *)

Definition sample_platform : Platform :=
  {| CACHE_DIR := "/home/user/.cache/ignis";
     repr := fun _ => "";
     float_add_one := fun f => f;
     variant_u := fun _ => None |}.

Definition sample_time : pyfloat := {| mantissa := 7629585167253111; exponent := -22 |}.

Definition sample_world : World := {| now := sample_time; savev_ok := true |}.

(** [Notify("app", replaces, "", "Hi", "body", [], {}, -1)] *)
Definition sample_call (replaces : Z) : NotifyArgs :=
  {| app_name := "app"; replaces_id := replaces; app_icon := ""; summary := "Hi";
     body := "body"; actions := [];
     hints := {| image_data := None; urgency := None |}; timeout := -1 |}.

(** A 1x1 RGB image. *)
Definition sample_image : px_args :=
  {| px_width := 1; px_height := 1; px_rowstride := 3; px_has_alpha := false;
     px_bits_per_sample := 8; px_channels := 3; px_data := [255; 0; 0] |}.

(** A call that carries both an icon name and image data. *)
Definition image_call : NotifyArgs :=
  {| app_name := "browser"; replaces_id := 0; app_icon := "firefox";
     summary := "Download"; body := "done"; actions := ["open"; "Open"];
     hints := {| image_data := Some sample_image; urgency := Some 2 |};
     timeout := 3000 |}.

(** A service started on an empty history. *)
Definition fresh_service (dnd0 : bool) (max_popups_count0 : Z) : State :=
  NotificationService_init sample_platform dnd0 5000 max_popups_count0
    (Some NOTIFICATIONS_EMPTY_CACHE_FILE) [].

(** A well-formed record of the cache file. *)
Definition sample_record (id : Z) : json :=
  JDict [("id", JInt id); ("app_name", JStr "app"); ("icon", JStr "");
         ("summary", JStr "Hi"); ("body", JStr "body"); ("actions", JList []);
         ("timeout", JInt 5000); ("time", JFloat sample_time);
         ("urgency", JInt 1)].

(** A cache file whose second record is a number. *)
Definition half_corrupt_file : json :=
  JDict [("id", JInt 2); ("notifications", JList [sample_record 1; JInt 7])].

(** A hand-edited cache file: the counter is a string, the time of the
    record an [int], its actions numbers. *)
Definition untyped_record : json :=
  JDict [("id", JInt 1); ("app_name", JStr "app"); ("icon", JStr "");
         ("summary", JStr "Hi"); ("body", JStr "body");
         ("actions", JList [JInt 1; JInt 2]);
         ("timeout", JInt 5000); ("time", JInt 5); ("urgency", JInt 1)].

Definition untyped_file : json :=
  JDict [("id", JStr "x"); ("notifications", JList [untyped_record])].

(** A cache file with a notification whose id is 0. *)
Definition id_zero_file : json :=
  JDict [("id", JInt 0); ("notifications", JList [sample_record 0])].

(** A call with one action string, which has no label to go with it. *)
Definition odd_call (replaces : Z) : NotifyArgs :=
  {| app_name := "app"; replaces_id := replaces; app_icon := ""; summary := "Hi";
     body := "body"; actions := ["open"];
     hints := {| image_data := None; urgency := None |}; timeout := -1 |}.

(** [image_call] as a replacement of notification 1. *)
Definition image_replace_call : NotifyArgs :=
  {| app_name := "browser"; replaces_id := 1; app_icon := "firefox";
     summary := "Download"; body := "done"; actions := ["open"; "Open"];
     hints := {| image_data := Some sample_image; urgency := Some 2 |};
     timeout := 3000 |}.

(** An environment in which the image cannot be written. *)
Definition failing_world : World := {| now := sample_time; savev_ok := false |}.

(** [n] calls of [sample_call 0]. *)
Definition sample_calls (n : nat) : list (World * NotifyArgs) :=
  repeat (sample_world, sample_call 0) n.

(** The loop runs until no signal waits; forty deliveries are enough for
    the runs below. *)
Definition settle (w : World) (s : State) : State :=
  deliver_each sample_platform (repeat w 40) s.

(** ** Facts about dictionaries *)

Lemma PyDict_get_In {V} (k : pykey) (v : V) (d : PyDict.t V) :
  PyDict.get k d = Some v -> In (k, v) d.
Proof.
  induction d as [|[k' v'] d IH]; simpl; [discriminate|].
  destruct (decide (k' = k)) as [->|Hne]; intros H.
  - left. congruence.
  - right. auto.
Qed.

Lemma PyDict_In_keys {V} (k : pykey) (v : V) (d : PyDict.t V) :
  In (k, v) d -> In k (PyDict.keys d).
Proof. intros H. apply (in_map fst) in H. exact H. Qed.

Lemma PyDict_get_None {V} (k : pykey) (d : PyDict.t V) :
  PyDict.get k d = None -> ~ In k (PyDict.keys d).
Proof.
  induction d as [|[k' v'] d IH]; simpl; [tauto|].
  destruct (decide (k' = k)) as [->|Hne]; [discriminate|].
  intros H [Heq|Hin]; [congruence|]. exact (IH H Hin).
Qed.

Lemma PyDict_remove_incl {V} (k : pykey) (d : PyDict.t V) e :
  In e (PyDict.remove k d) -> In e d.
Proof.
  induction d as [|[k' v'] d IH]; simpl; [tauto|].
  destruct (decide (k' = k)); simpl; [tauto|]. intros [H|H]; auto.
Qed.

Lemma PyDict_remove_keys_incl {V} (k k0 : pykey) (d : PyDict.t V) :
  In k0 (PyDict.keys (PyDict.remove k d)) -> In k0 (PyDict.keys d).
Proof.
  induction d as [|[k' v'] d IH]; simpl; [tauto|].
  destruct (decide (k' = k)); simpl; [tauto|]. intros [H|H]; auto.
Qed.

Lemma PyDict_remove_NoDup {V} (k : pykey) (d : PyDict.t V) :
  NoDup (PyDict.keys d) -> NoDup (PyDict.keys (PyDict.remove k d)).
Proof.
  induction d as [|[k' v'] d IH]; simpl; [auto|].
  intros H. apply NoDup_cons in H as [Hnin Hnd].
  destruct (decide (k' = k)); simpl; [exact Hnd|].
  apply NoDup_cons. split; [|auto].
  intros Hin. apply Hnin. apply list_elem_of_In.
  apply list_elem_of_In in Hin. eapply PyDict_remove_keys_incl; eauto.
Qed.

Lemma PyDict_remove_key_gone {V} (k : pykey) (d : PyDict.t V) :
  NoDup (PyDict.keys d) -> ~ In k (PyDict.keys (PyDict.remove k d)).
Proof.
  induction d as [|[k' v'] d IH]; simpl; [tauto|].
  intros H. apply NoDup_cons in H as [Hnin Hnd].
  destruct (decide (k' = k)) as [->|Hne]; simpl.
  - intros Hin. apply Hnin. apply list_elem_of_In. exact Hin.
  - intros [Heq|Hin]; [congruence|]. exact (IH Hnd Hin).
Qed.

Lemma PyDict_remove_length {V} (k : pykey) (d : PyDict.t V) :
  (length (PyDict.remove k d) <= length d)%nat.
Proof.
  induction d as [|[k' v'] d IH]; simpl; [lia|].
  destruct (decide (k' = k)); simpl; lia.
Qed.

Lemma PyDict_remove_length_In {V} (k : pykey) (d : PyDict.t V) :
  In k (PyDict.keys d) -> S (length (PyDict.remove k d)) = length d.
Proof.
  induction d as [|[k' v'] d IH]; simpl; [tauto|].
  destruct (decide (k' = k)) as [->|Hne]; simpl; [auto|].
  intros [Heq|Hin]; [congruence|]. rewrite IH; auto.
Qed.

Lemma PyDict_set_length {V} (k : pykey) (v : V) (d : PyDict.t V) :
  (length (PyDict.set k v d) <= S (length d))%nat.
Proof.
  induction d as [|[k' v'] d IH]; simpl; [lia|].
  destruct (decide (k' = k)); simpl; lia.
Qed.

Lemma PyDict_set_In {V} (k : pykey) (v : V) (d : PyDict.t V) k0 v0 :
  In (k0, v0) (PyDict.set k v d) -> (k0 = k /\ v0 = v) \/ In (k0, v0) d.
Proof.
  induction d as [|[k' v'] d IH]; simpl.
  - intros [H|[]]. left. split; congruence.
  - destruct (decide (k' = k)) as [->|Hne]; simpl.
    + intros [H|H]; [left; split; congruence|auto].
    + intros [H|H]; [auto|]. destruct (IH H) as [?|?]; auto.
Qed.

Lemma PyDict_set_keys {V} (k : pykey) (v : V) (d : PyDict.t V) :
  PyDict.keys (PyDict.set k v d) =
  match PyDict.get k d with
  | Some _ => PyDict.keys d
  | None => (PyDict.keys d ++ [k])%list
  end.
Proof.
  induction d as [|[k' v'] d IH]; simpl; [reflexivity|].
  destruct (decide (k' = k)) as [->|Hne]; simpl; [reflexivity|].
  rewrite IH. destruct (PyDict.get k d); reflexivity.
Qed.

Lemma PyDict_set_NoDup {V} (k : pykey) (v : V) (d : PyDict.t V) :
  NoDup (PyDict.keys d) -> NoDup (PyDict.keys (PyDict.set k v d)).
Proof.
  intros H. rewrite PyDict_set_keys.
  destruct (PyDict.get k d) eqn:Hg; [exact H|].
  apply NoDup_app. split; [exact H|]. split.
  - intros x Hx Hx'. apply list_elem_of_In in Hx, Hx'.
    destruct Hx' as [<-|[]]. exact (PyDict_get_None _ _ Hg Hx).
  - apply NoDup_singleton.
Qed.

Lemma PyDict_set_get {V} (k : pykey) (v : V) (d : PyDict.t V) :
  PyDict.get k (PyDict.set k v d) = Some v.
Proof.
  induction d as [|[k' v'] d IH]; simpl.
  - rewrite decide_True by reflexivity. reflexivity.
  - destruct (decide (k' = k)) as [->|Hne]; simpl.
    + rewrite decide_True by reflexivity. reflexivity.
    + rewrite decide_False by exact Hne. exact IH.
Qed.

Lemma PyDict_last_In {V} (v : V) (d : PyDict.t V) :
  last (PyDict.values d) = Some v -> exists k, In (k, v) d.
Proof.
  unfold PyDict.values. intros H.
  assert (Hin : In v (map snd d)).
  { apply list_elem_of_In. apply last_Some_elem_of. exact H. }
  apply in_map_iff in Hin as [[k v'] [Heq Hin]]. simpl in Heq. subst.
  eauto.
Qed.

Lemma PyDict_not_In_get {V} (k : pykey) (d : PyDict.t V) :
  ~ In k (PyDict.keys d) -> PyDict.get k d = None.
Proof.
  induction d as [|[k' v'] d IH]; simpl; [reflexivity|].
  intros H. destruct (decide (k' = k)) as [->|Hne]; [tauto|].
  apply IH. tauto.
Qed.

Lemma PyDict_get_None_remove {V} (k : pykey) (d : PyDict.t V) :
  PyDict.get k d = None -> PyDict.remove k d = d.
Proof.
  induction d as [|[k' v'] d IH]; simpl; [reflexivity|].
  destruct (decide (k' = k)); [discriminate|]. intros H. rewrite IH; auto.
Qed.

Lemma PyDict_set_fresh {V} (k : pykey) (v : V) (d : PyDict.t V) :
  ~ In k (PyDict.keys d) -> PyDict.set k v d = (d ++ [(k, v)])%list.
Proof.
  induction d as [|[k' v'] d IH]; simpl; [reflexivity|].
  intros H. destruct (decide (k' = k)) as [->|Hne]; [tauto|].
  rewrite IH; [reflexivity|tauto].
Qed.

Lemma PyDict_remove_get_other {V} (k k' : pykey) (d : PyDict.t V) :
  k' <> k -> PyDict.get k' (PyDict.remove k d) = PyDict.get k' d.
Proof.
  intros Hne. induction d as [|[k0 v0] d IH]; simpl; [reflexivity|].
  destruct (decide (k0 = k)) as [->|Hk]; simpl.
  - rewrite decide_False by congruence. reflexivity.
  - rewrite IH. reflexivity.
Qed.

Lemma PyDict_remove_get_same {V} (k : pykey) (d : PyDict.t V) :
  NoDup (PyDict.keys d) -> PyDict.get k (PyDict.remove k d) = None.
Proof.
  intros Hnd. apply PyDict_not_In_get. apply PyDict_remove_key_gone. exact Hnd.
Qed.

Lemma PyDict_In_get {V} (k : pykey) (v : V) (d : PyDict.t V) :
  NoDup (PyDict.keys d) -> In (k, v) d -> PyDict.get k d = Some v.
Proof.
  induction d as [|[k0 v0] d IH]; simpl; [tauto|].
  intros Hnd Hin. apply NoDup_cons in Hnd as [Hnin Hnd].
  destruct Hin as [[= -> ->]|Hin].
  - rewrite decide_True by reflexivity. reflexivity.
  - destruct (decide (k0 = k)) as [->|Hne]; [|auto].
    exfalso. apply Hnin. apply list_elem_of_In. eapply PyDict_In_keys. exact Hin.
Qed.

Lemma PyDict_remove_fresh_last {V} (k : pykey) (v : V) (d : PyDict.t V) :
  ~ In k (PyDict.keys d) -> PyDict.remove k (d ++ [(k, v)])%list = d.
Proof.
  induction d as [|[k0 v0] d IH]; simpl.
  - rewrite decide_True by reflexivity. reflexivity.
  - intros H. destruct (decide (k0 = k)) as [->|Hne]; [tauto|].
    rewrite IH; [reflexivity|tauto].
Qed.

(** ** Folding a handler list *)

Lemma fold_left_rel {A B} (R : A -> A -> Prop) (f : A -> B -> A) :
  (forall a, R a a) -> (forall a b c, R a b -> R b c -> R a c) ->
  (forall a b, R a (f a b)) -> forall l a, R a (fold_left f l a).
Proof.
  intros Hrefl Htrans Hf l. induction l as [|b l IH]; intros a; simpl.
  - apply Hrefl.
  - eapply Htrans; [apply Hf|apply IH].
Qed.

Lemma fold_left_inv {A B} (P : A -> Prop) (f : A -> B -> A) :
  (forall a b, P a -> P (f a b)) -> forall l a, P a -> P (fold_left f l a).
Proof.
  intros Hf l. induction l as [|b l IH]; intros a Ha; simpl; auto.
Qed.


(** ** Objects are never rebuilt *)

Lemma evolves_on_refl P s : evolves_on P s s.
Proof. intros r n _ H. eauto 10. Qed.

Lemma evolves_on_trans P s1 s2 s3 :
  evolves_on P s1 s2 -> evolves_on P s2 s3 -> evolves_on P s1 s3.
Proof.
  intros H12 H23 r n HP Hn.
  destruct (H12 r n HP Hn) as (n2 & Hn2 & Hp2 & Hf2 & Hc2 & Hd2).
  destruct (H23 r n2 HP Hn2) as (n3 & Hn3 & Hp3 & Hf3 & Hc3 & Hd3).
  exists n3. repeat split; [exact Hn3|congruence|auto|congruence|congruence].
Qed.

Lemma evolves_on_weaken (P Q : ref -> Prop) s s' :
  (forall r, Q r -> P r) -> evolves_on P s s' -> evolves_on Q s s'.
Proof. intros HQP H r n HQ Hn. apply H; auto. Qed.

Lemma evolves_on_same_objects P s s' : objects s' = objects s -> evolves_on P s s'.
Proof. intros H r n _ Hn. rewrite H. eauto 10. Qed.

Lemma evolves_on_insert P s s' r n n' :
  objects s !! r = Some n -> objects s' = <[r := n']> (objects s) ->
  persisted n' = persisted n ->
  (Notification._popup n = false -> Notification._popup n' = false) ->
  Notification.closed_handlers n' = Notification.closed_handlers n ->
  Notification.dismissed_handlers n' = Notification.dismissed_handlers n ->
  evolves_on P s s'.
Proof.
  intros Hn Ho Hp Hf Hc Hd r0 n0 _ Hn0. rewrite Ho.
  destruct (Nat.eq_dec r r0) as [<-|Hne].
  - exists n'. rewrite list_lookup_insert_eq by (eapply lookup_lt_Some; eauto).
    assert (n0 = n) by congruence. subst. auto.
  - exists n0. rewrite list_lookup_insert_ne by exact Hne. auto 10.
Qed.

Lemma evolves_on_insert_other s s' (r : ref) n' :
  objects s' = <[r := n']> (objects s) -> evolves_on (fun r0 => r0 <> r) s s'.
Proof.
  intros Ho r0 n0 Hne Hn0. exists n0. rewrite Ho.
  rewrite list_lookup_insert_ne by auto. auto 10.
Qed.

Lemma evolves_on_new_object P n s s' :
  evolves_on (fun r => r <> length (objects s)) (set_objects (objects s ++ [n]) s) s' ->
  evolves_on P s s'.
Proof.
  intros H r n0 _ Hn0.
  assert (Hlt : (r < length (objects s))%nat) by (eapply lookup_lt_Some; eauto).
  apply H; [lia|]. simpl. rewrite lookup_app_l by exact Hlt. exact Hn0.
Qed.

Lemma evolves_persists s s' : evolves s s' -> persists s s'.
Proof.
  intros H r n Hn. destruct (H r n I Hn) as (n' & Hn' & Hp & Hf & _). eauto.
Qed.

Lemma persists_refl s : persists s s.
Proof. intros r n H. eauto. Qed.

Lemma persists_trans s1 s2 s3 : persists s1 s2 -> persists s2 s3 -> persists s1 s3.
Proof.
  intros H12 H23 r n Hn.
  destruct (H12 r n Hn) as (n2 & Hn2 & Hp2 & Hf2).
  destruct (H23 r n2 Hn2) as (n3 & Hn3 & Hp3 & Hf3).
  exists n3. repeat split; [exact Hn3|congruence|auto].
Qed.

Lemma evolves_on_length P s s' :
  evolves_on P s s' -> forall r, P r -> (r < length (objects s))%nat ->
  (r < length (objects s'))%nat.
Proof.
  intros H r HP Hlt. destruct (lookup_lt_is_Some_2 _ _ Hlt) as [n Hn].
  destruct (H r n HP Hn) as (n' & Hn' & _). eapply lookup_lt_Some. exact Hn'.
Qed.

Lemma Notification_dismiss_evolves P r s : evolves_on P s (Notification_dismiss r s).
Proof.
  unfold Notification_dismiss. destruct (objects s !! r) as [n|] eqn:Hn;
    [|apply evolves_on_refl].
  destruct (Notification._popup n) eqn:Hp; [|apply evolves_on_refl].
  eapply evolves_on_insert; eauto; simpl; congruence.
Qed.

Lemma Notification_close_evolves P r s : evolves_on P s (Notification_close r s).
Proof.
  unfold Notification_close. case_match; [|apply evolves_on_refl].
  apply evolves_on_same_objects. reflexivity.
Qed.

Lemma dismiss_popup_evolves P r s : evolves_on P s (dismiss_popup r s).
Proof.
  unfold dismiss_popup. repeat case_match; try apply evolves_on_refl.
  apply evolves_on_same_objects. reflexivity.
Qed.

Lemma add_notification_evolves r s :
  evolves_on (fun r0 => r0 <> r) s (snd (add_notification r s)).
Proof.
  unfold add_notification. destruct (objects s !! r) as [n|] eqn:Hn;
    [|apply evolves_on_refl].
  case_match; simpl; eapply evolves_on_insert_other; reflexivity.
Qed.

Ltac evolves_step lem := eapply evolves_on_trans; [|apply lem].

Ltac evolves_same s0 :=
  apply (evolves_on_trans _ _ s0); [|apply evolves_on_same_objects; reflexivity].

Ltac evolves_steps :=
  repeat match goal with
  | |- evolves_on _ ?s ?s => apply evolves_on_refl
  | |- evolves_on _ _ (Notification_dismiss _ _) => evolves_step Notification_dismiss_evolves
  | |- evolves_on _ _ (Notification_close _ _) => evolves_step Notification_close_evolves
  | |- evolves_on _ _ (dismiss_popup _ _) => evolves_step dismiss_popup_evolves
  | |- evolves_on _ _ (emit _ ?s0) => evolves_same s0
  | |- evolves_on _ _ (emit_signal _ ?s0) => evolves_same s0
  | |- evolves_on _ _ (sync ?s0) => evolves_same s0
  | |- evolves_on _ _ (set_popups _ ?s0) => evolves_same s0
  | |- evolves_on _ _ (set_notifications _ ?s0) => evolves_same s0
  | |- evolves_on _ _ (set_images _ ?s0) => evolves_same s0
  | |- evolves_on _ _ (set_id _ ?s0) => evolves_same s0
  | |- evolves_on _ _ (set_pending _ ?s0) => evolves_same s0
  | |- evolves_on _ _ (set_cache_file _ ?s0) => evolves_same s0
  end.

Lemma make_room_evolves P s : evolves_on P s (snd (make_room s)).
Proof.
  unfold make_room. repeat case_match; simpl; evolves_steps.
Qed.

Lemma show_popup_evolves P r n s : evolves_on P s (snd (show_popup r n s)).
Proof.
  unfold show_popup. repeat case_match; simpl; evolves_steps.
Qed.

Section Properties.

Variable env : Platform.

Lemma close_notification_evolves P r s : evolves_on P s (close_notification env r s).
Proof.
  unfold close_notification. repeat case_match; evolves_steps.
Qed.

Lemma init_tail_evolves r n s :
  evolves_on (fun r0 => r0 <> r) s (snd (init_tail r n s)).
Proof.
  unfold init_tail.
  pose proof (make_room_evolves (fun r0 => r0 <> r) s) as H1.
  destruct (make_room s) as [[u|e] s3]; simpl in *; [|exact H1].
  pose proof (show_popup_evolves (fun r0 => r0 <> r) r n s3) as H2.
  destruct (show_popup r n s3) as [[u'|e] s4]; simpl in *;
    [|eapply evolves_on_trans; eauto].
  pose proof (add_notification_evolves r s4) as H3.
  destruct (add_notification r s4) as [[u''|e] s5]; simpl in *.
  - evolves_steps. eapply evolves_on_trans; [|exact H3].
    eapply evolves_on_trans; eauto.
  - eapply evolves_on_trans; [|exact H3]. eapply evolves_on_trans; eauto.
Qed.

Lemma init_notification_evolves P w id a s :
  evolves_on P s (snd (init_notification env w id a s)).
Proof.
  unfold init_notification, save_pixbuf, new_object. cbv zeta.
  repeat case_match; simplify_eq; cbn [fst snd]; evolves_steps;
    match goal with
    | |- evolves_on _ ?s (snd (init_tail _ _ (set_objects (objects ?s1 ++ [?n]) ?s1))) =>
        apply (evolves_on_trans _ s s1); [apply evolves_on_same_objects; reflexivity|];
        apply (evolves_on_new_object _ n); apply init_tail_evolves
    end.
Qed.

Lemma run_closed_handler_evolves P w r h s :
  evolves_on P s (run_closed_handler env w r h s).
Proof.
  destruct h; simpl; [apply close_notification_evolves|apply init_notification_evolves].
Qed.

Lemma deliver_evolves P w s : evolves_on P s (deliver env w s).
Proof.
  unfold deliver. destruct (pending s) as [|e q]; [apply evolves_on_refl|].
  eapply evolves_on_trans;
    [apply (evolves_on_same_objects _ s (set_pending q s)); reflexivity|].
  destruct e; try apply evolves_on_refl.
  - case_match; [|apply evolves_on_refl].
    apply fold_left_rel; auto using evolves_on_refl, run_closed_handler_evolves.
    intros; eapply evolves_on_trans; eauto.
  - case_match; [|apply evolves_on_refl].
    apply fold_left_rel; auto using evolves_on_refl.
    + intros; eapply evolves_on_trans; eauto.
    + intros s0 []; simpl. apply dismiss_popup_evolves.
Qed.

Lemma deliver_each_evolves P ws s : evolves_on P s (deliver_each env ws s).
Proof.
  unfold deliver_each. apply fold_left_rel; auto using evolves_on_refl, deliver_evolves.
  intros; eapply evolves_on_trans; eauto.
Qed.

Lemma CloseNotification_evolves P id s : evolves_on P s (CloseNotification id s).
Proof.
  unfold CloseNotification. case_match;
    [apply Notification_close_evolves|apply evolves_on_refl].
Qed.

Lemma clear_all_evolves P s : evolves_on P s (clear_all s).
Proof.
  unfold clear_all.
  apply fold_left_rel; auto using evolves_on_refl, Notification_close_evolves.
  intros; eapply evolves_on_trans; eauto.
Qed.

Lemma connect_closed_persists r h s : persists s (connect_closed r h s).
Proof.
  unfold connect_closed. destruct (objects s !! r) as [n|] eqn:Hn; [|apply persists_refl].
  intros r0 n0 Hn0. simpl.
  destruct (Nat.eq_dec r r0) as [<-|Hne].
  - exists (Notification.connect_closed h n).
    rewrite list_lookup_insert_eq by (eapply lookup_lt_Some; eauto).
    assert (n0 = n) by congruence. subst. auto.
  - exists n0. rewrite list_lookup_insert_ne by exact Hne. auto.
Qed.

Lemma Notify_persists w a s : persists s (snd (Notify env w a s)).
Proof.
  unfold Notify, reply_u.
  repeat case_match; simplify_eq; cbn [fst snd]; try apply persists_refl.
  all: repeat match goal with
       | H : init_notification env ?w ?i ?a ?s = (_, ?s') |- persists _ ?s' =>
           replace s' with (snd (init_notification env w i a s)) by (rewrite H; reflexivity);
           clear H; eapply persists_trans;
             [|apply evolves_persists; apply init_notification_evolves]
       | |- persists _ (connect_closed _ _ _) =>
           eapply persists_trans; [|apply connect_closed_persists]
       | |- persists _ (Notification_close _ _) =>
           eapply persists_trans;
             [|apply evolves_persists; apply Notification_close_evolves]
       | |- persists ?s (set_id _ ?s) =>
           apply evolves_persists; apply evolves_on_same_objects; reflexivity
       | |- persists ?s ?s => apply persists_refl
       end.
Qed.

Lemma step_persists w o s : persists s (step env w o s).
Proof.
  destruct o; simpl;
    try (apply evolves_persists; apply evolves_on_same_objects; reflexivity).
  - apply Notify_persists.
  - apply evolves_persists, CloseNotification_evolves.
  - apply evolves_persists, clear_all_evolves.
  - apply evolves_persists, Notification_close_evolves.
  - apply evolves_persists, Notification_dismiss_evolves.
  - apply evolves_persists, deliver_evolves.
Qed.

(** ** What the methods leave alone *)

Lemma stable_refl s : stable s s.
Proof. repeat split. Qed.

Lemma stable_trans s1 s2 s3 : stable s1 s2 -> stable s2 s3 -> stable s1 s3.
Proof. unfold stable, same_options. intuition congruence. Qed.

Lemma stable_same s s' :
  _id s' = _id s -> dnd s' = dnd s -> popup_timeout s' = popup_timeout s ->
  max_popups_count s' = max_popups_count s -> stable s s'.
Proof. unfold stable, same_options. auto. Qed.

Lemma Notification_dismiss_stable r s : stable s (Notification_dismiss r s).
Proof. unfold Notification_dismiss. repeat case_match; apply stable_same; reflexivity. Qed.

Lemma Notification_close_stable r s : stable s (Notification_close r s).
Proof. unfold Notification_close. repeat case_match; apply stable_same; reflexivity. Qed.

Lemma dismiss_popup_stable r s : stable s (dismiss_popup r s).
Proof. unfold dismiss_popup. repeat case_match; apply stable_same; reflexivity. Qed.

Lemma add_notification_stable r s : stable s (snd (add_notification r s)).
Proof. unfold add_notification. repeat case_match; apply stable_same; reflexivity. Qed.

Lemma make_room_stable s : stable s (snd (make_room s)).
Proof.
  unfold make_room. repeat case_match; simpl;
    try apply stable_refl; apply Notification_dismiss_stable.
Qed.

Lemma show_popup_stable r n s : stable s (snd (show_popup r n s)).
Proof. unfold show_popup. repeat case_match; apply stable_same; reflexivity. Qed.

Lemma close_notification_stable r s : stable s (close_notification env r s).
Proof.
  unfold close_notification. repeat case_match; try apply stable_refl.
  all: eapply stable_trans; [|apply stable_same; reflexivity].
  all: try (eapply stable_trans; [|apply Notification_dismiss_stable]).
  all: apply stable_same; reflexivity.
Qed.

Lemma init_tail_stable r n s : stable s (snd (init_tail r n s)).
Proof.
  unfold init_tail.
  pose proof (make_room_stable s) as H1.
  destruct (make_room s) as [[u|e] s1]; simpl in *; [|exact H1].
  pose proof (show_popup_stable r n s1) as H2.
  destruct (show_popup r n s1) as [[u'|e] s2]; simpl in *;
    [|eapply stable_trans; eauto].
  pose proof (add_notification_stable r s2) as H3.
  destruct (add_notification r s2) as [[u''|e] s3]; simpl in *.
  - eapply stable_trans; [|apply stable_same; reflexivity].
    eapply stable_trans; [|exact H3]. eapply stable_trans; eauto.
  - eapply stable_trans; [|exact H3]. eapply stable_trans; eauto.
Qed.

Lemma init_notification_stable w id a s :
  stable s (snd (init_notification env w id a s)).
Proof.
  unfold init_notification, save_pixbuf, new_object. cbv zeta.
  repeat case_match; simplify_eq; cbn [fst snd]; try apply stable_refl;
    try (apply stable_same; reflexivity).
  all: eapply stable_trans; [|apply init_tail_stable].
  all: apply stable_same; reflexivity.
Qed.

Lemma run_closed_handler_stable w r h s : stable s (run_closed_handler env w r h s).
Proof.
  destruct h; simpl; [apply close_notification_stable|apply init_notification_stable].
Qed.

Lemma deliver_stable w s : stable s (deliver env w s).
Proof.
  unfold deliver. destruct (pending s) as [|e q]; [apply stable_refl|].
  eapply stable_trans; [apply (stable_same s (set_pending q s)); reflexivity|].
  destruct e; try apply stable_refl.
  - case_match; [|apply stable_refl].
    apply fold_left_rel; auto using stable_refl, run_closed_handler_stable.
    intros; eapply stable_trans; eauto.
  - case_match; [|apply stable_refl].
    apply fold_left_rel; auto using stable_refl.
    + intros; eapply stable_trans; eauto.
    + intros s0 []; simpl. apply dismiss_popup_stable.
Qed.

Lemma deliver_each_stable ws s : stable s (deliver_each env ws s).
Proof.
  unfold deliver_each. apply fold_left_rel; auto using stable_refl, deliver_stable.
  intros; eapply stable_trans; eauto.
Qed.

Lemma CloseNotification_stable id s : stable s (CloseNotification id s).
Proof.
  unfold CloseNotification. case_match;
    [apply Notification_close_stable|apply stable_refl].
Qed.

Lemma clear_all_stable s : stable s (clear_all s).
Proof.
  unfold clear_all.
  apply fold_left_rel; auto using stable_refl, Notification_close_stable.
  intros; eapply stable_trans; eauto.
Qed.

Lemma connect_closed_stable r h s : stable s (connect_closed r h s).
Proof. unfold connect_closed. case_match; apply stable_same; reflexivity. Qed.

Lemma Notify_same_options w a s : same_options s (snd (Notify env w a s)).
Proof.
  unfold Notify, reply_u.
  repeat case_match; simplify_eq; cbn [fst snd]; try (repeat split; reflexivity).
  all: repeat match goal with
       | H : init_notification env ?w ?i ?a ?s = (_, ?s') |- same_options _ ?s' =>
           replace s' with (snd (init_notification env w i a s)) by (rewrite H; reflexivity);
           clear H;
           destruct (init_notification_stable w i a s) as [_ (? & ? & ?)];
           unfold same_options; simpl in *; repeat split; congruence
       | |- same_options _ (connect_closed ?r ?h ?s0) =>
           destruct (connect_closed_stable r h s0) as [_ (? & ? & ?)];
           destruct (Notification_close_stable r s) as [_ (? & ? & ?)];
           unfold same_options; repeat split; congruence
       end.
Qed.

(** ** The two dictionaries stay well-formed *)

Lemma persists_id s s' (r : ref) n :
  persists s s' -> objects s !! r = Some n ->
  exists n', objects s' !! r = Some n' /\ Notification._id n' = Notification._id n.
Proof.
  intros H Hn. destruct (H r n Hn) as (n' & Hn' & Hp & _).
  exists n'. split; [exact Hn'|]. unfold persisted in Hp. congruence.
Qed.

Lemma evolves_on_app P s s' l :
  objects s' = (objects s ++ l)%list -> evolves_on P s s'.
Proof.
  intros Ho r n _ Hn. exists n. rewrite Ho.
  rewrite lookup_app_l by (eapply lookup_lt_Some; eauto). auto 10.
Qed.

Lemma add_notification_persists r s : persists s (snd (add_notification r s)).
Proof.
  unfold add_notification. destruct (objects s !! r) as [n|] eqn:Hn; [|apply persists_refl].
  assert (H : forall s', objects s' =
            <[r := Notification.connect_dismissed on_dismissed_dismiss_popup
                     (Notification.connect_closed on_closed_close_notification n)]>
              (objects s) -> persists s s').
  { intros s' Ho r0 n0 Hn0. rewrite Ho.
    destruct (Nat.eq_dec r r0) as [<-|Hne].
    - eexists. rewrite list_lookup_insert_eq by (eapply lookup_lt_Some; eauto).
      assert (n0 = n) by congruence. subst. split; [reflexivity|]. auto.
    - exists n0. rewrite list_lookup_insert_ne by exact Hne. auto. }
  case_match; simpl; apply H; reflexivity.
Qed.

Lemma notification_ok_evolves (P : ref -> Prop) s s' k r :
  evolves_on P s s' -> P r -> notification_ok s k r -> notification_ok s' k r.
Proof.
  intros Hev HP (n & Hn & Hk & (hs & Hc) & Hd).
  destruct (Hev r n HP Hn) as (n' & Hn' & Hp & _ & Hc' & Hd').
  exists n'. split; [exact Hn'|].
  assert (Notification._id n' = Notification._id n) by (unfold persisted in Hp; congruence).
  split; [congruence|]. split; [exists hs; congruence|congruence].
Qed.

Lemma popup_ok_persists s s' k r :
  persists s s' -> popup_ok s k r -> popup_ok s' k r.
Proof.
  intros Hp (n & Hn & Hk). destruct (persists_id s s' r n Hp Hn) as (n' & Hn' & Hid).
  exists n'. split; [exact Hn'|congruence].
Qed.

Lemma notification_ok_valid s k r : notification_ok s k r -> (r < length (objects s))%nat.
Proof. intros (n & Hn & _). eapply lookup_lt_Some. exact Hn. Qed.

Lemma popup_ok_valid s k r : popup_ok s k r -> (r < length (objects s))%nat.
Proof. intros (n & Hn & _). eapply lookup_lt_Some. exact Hn. Qed.

Lemma notifications_inv_frame s s' :
  evolves s s' -> _notifications s' = _notifications s ->
  notifications_inv s -> notifications_inv s'.
Proof.
  intros Hev Heq [Hnd Hok]. split; rewrite Heq; [exact Hnd|].
  intros k r Hin. eapply notification_ok_evolves; eauto. exact I.
Qed.

Lemma notifications_inv_remove k s s' :
  evolves s s' -> _notifications s' = PyDict.remove k (_notifications s) ->
  notifications_inv s -> notifications_inv s'.
Proof.
  intros Hev Heq [Hnd Hok]. split; rewrite Heq.
  - apply PyDict_remove_NoDup. exact Hnd.
  - intros k0 r Hin. apply PyDict_remove_incl in Hin.
    eapply notification_ok_evolves; eauto. exact I.
Qed.

Lemma popups_inv_frame s s' :
  persists s s' -> _popups s' = _popups s -> popups_inv s -> popups_inv s'.
Proof.
  intros Hev Heq [Hnd Hok]. split; rewrite Heq; [exact Hnd|].
  intros k r Hin. eapply popup_ok_persists; eauto.
Qed.

Lemma popups_inv_remove k s s' :
  persists s s' -> _popups s' = PyDict.remove k (_popups s) ->
  popups_inv s -> popups_inv s'.
Proof.
  intros Hev Heq [Hnd Hok]. split; rewrite Heq.
  - apply PyDict_remove_NoDup. exact Hnd.
  - intros k0 r Hin. apply PyDict_remove_incl in Hin.
    eapply popup_ok_persists; eauto.
Qed.

(** What each method does to the two dictionaries. *)

Lemma Notification_dismiss_dicts r s :
  _notifications (Notification_dismiss r s) = _notifications s /\
  _popups (Notification_dismiss r s) = _popups s.
Proof. unfold Notification_dismiss. repeat case_match; split; reflexivity. Qed.

Lemma Notification_close_dicts r s :
  _notifications (Notification_close r s) = _notifications s /\
  _popups (Notification_close r s) = _popups s.
Proof. unfold Notification_close. repeat case_match; split; reflexivity. Qed.

Lemma make_room_dicts s :
  _notifications (snd (make_room s)) = _notifications s /\
  _popups (snd (make_room s)) = _popups s.
Proof.
  unfold make_room. repeat case_match; simpl; try (split; reflexivity).
  apply Notification_dismiss_dicts.
Qed.

Lemma dismiss_popup_dicts r s :
  _notifications (dismiss_popup r s) = _notifications s /\
  (_popups (dismiss_popup r s) = _popups s \/
   exists k, _popups (dismiss_popup r s) = PyDict.remove k (_popups s)).
Proof.
  unfold dismiss_popup. repeat case_match; simpl; split; eauto.
Qed.

Lemma close_notification_dicts r s :
  _popups (close_notification env r s) = _popups s /\
  (_notifications (close_notification env r s) = _notifications s \/
   exists k, _notifications (close_notification env r s) =
               PyDict.remove k (_notifications s)).
Proof.
  unfold close_notification, PyDict.pop.
  repeat case_match; simplify_eq; simpl; split; eauto;
    rewrite ?(proj2 (Notification_dismiss_dicts _ _)),
            ?(proj1 (Notification_dismiss_dicts _ _)); simpl; eauto.
Qed.

Lemma Notification_dismiss_inv r s :
  (notifications_inv s -> notifications_inv (Notification_dismiss r s)) /\
  (popups_inv s -> popups_inv (Notification_dismiss r s)).
Proof.
  destruct (Notification_dismiss_dicts r s) as [Hn Hp].
  split; intros H.
  - eapply notifications_inv_frame; eauto. apply Notification_dismiss_evolves.
  - eapply popups_inv_frame; eauto.
    apply evolves_persists, Notification_dismiss_evolves.
Qed.

Lemma Notification_close_inv r s :
  (notifications_inv s -> notifications_inv (Notification_close r s)) /\
  (popups_inv s -> popups_inv (Notification_close r s)).
Proof.
  destruct (Notification_close_dicts r s) as [Hn Hp].
  split; intros H.
  - eapply notifications_inv_frame; eauto. apply Notification_close_evolves.
  - eapply popups_inv_frame; eauto.
    apply evolves_persists, Notification_close_evolves.
Qed.

Lemma make_room_inv s :
  (notifications_inv s -> notifications_inv (snd (make_room s))) /\
  (popups_inv s -> popups_inv (snd (make_room s))).
Proof.
  destruct (make_room_dicts s) as [Hn Hp].
  split; intros H.
  - eapply notifications_inv_frame; eauto. apply make_room_evolves.
  - eapply popups_inv_frame; eauto. apply evolves_persists, make_room_evolves.
Qed.

Lemma dismiss_popup_inv r s :
  (notifications_inv s -> notifications_inv (dismiss_popup r s)) /\
  (popups_inv s -> popups_inv (dismiss_popup r s)).
Proof.
  destruct (dismiss_popup_dicts r s) as [Hn [Hp|[k Hp]]].
  - split; intros H.
    + eapply notifications_inv_frame; eauto. apply dismiss_popup_evolves.
    + eapply popups_inv_frame; eauto. apply evolves_persists, dismiss_popup_evolves.
  - split; intros H.
    + eapply notifications_inv_frame; eauto. apply dismiss_popup_evolves.
    + eapply popups_inv_remove; eauto. apply evolves_persists, dismiss_popup_evolves.
Qed.

Lemma close_notification_inv r s :
  (notifications_inv s -> notifications_inv (close_notification env r s)) /\
  (popups_inv s -> popups_inv (close_notification env r s)).
Proof.
  destruct (close_notification_dicts r s) as [Hp [Hn|[k Hn]]].
  - split; intros H.
    + eapply notifications_inv_frame; eauto. apply close_notification_evolves.
    + eapply popups_inv_frame; eauto. apply evolves_persists, close_notification_evolves.
  - split; intros H.
    + eapply notifications_inv_remove; eauto. apply close_notification_evolves.
    + eapply popups_inv_frame; eauto. apply evolves_persists, close_notification_evolves.
Qed.

Lemma show_popup_inv r n s n0 :
  objects s !! r = Some n0 -> Notification._id n0 = Notification._id n ->
  (notifications_inv s -> notifications_inv (snd (show_popup r n s))) /\
  (popups_inv s -> popups_inv (snd (show_popup r n s))).
Proof.
  intros Hn0 Hid. unfold show_popup.
  destruct (Notification._popup n); [|simpl; auto].
  destruct (hash_key (Notification._id n)) as [k|] eqn:Hk; [|simpl; auto].
  cbn [snd]. split.
  - intros H. eapply notifications_inv_frame; [| |exact H]; [|reflexivity].
    apply evolves_on_same_objects. reflexivity.
  - intros [Hnd Hok]. split; simpl.
    + apply PyDict_set_NoDup. exact Hnd.
    + intros k0 r0 Hin. apply PyDict_set_In in Hin as [[-> ->]|Hin].
      * exists n0. split; [exact Hn0|congruence].
      * destruct (Hok k0 r0 Hin) as (n1 & Hn1 & Hk1). exists n1. auto.
Qed.

Lemma add_notification_inv r n s :
  objects s !! r = Some n ->
  Notification.closed_handlers n = [] -> Notification.dismissed_handlers n = [] ->
  (notifications_inv s -> notifications_inv (snd (add_notification r s))) /\
  (popups_inv s -> popups_inv (snd (add_notification r s))).
Proof.
  intros Hn Hc Hd. split.
  - intros [Hnd Hok].
    assert (Hother : forall k0 r0, In (k0, r0) (_notifications s) ->
              notification_ok (snd (add_notification r s)) k0 r0).
    { intros k0 r0 Hin. pose proof (Hok k0 r0 Hin) as Hok0.
      eapply (notification_ok_evolves (fun r1 => r1 <> r));
        [apply add_notification_evolves| |exact Hok0].
      intros ->. destruct Hok0 as (n1 & Hn1 & _ & (hs & Hc1) & _). congruence. }
    revert Hother. unfold add_notification. rewrite Hn.
    destruct (hash_key (Notification._id n)) as [k|] eqn:Hk; cbn [snd]; intros Hother.
    + split; simpl.
      * apply PyDict_set_NoDup. exact Hnd.
      * intros k0 r0 Hin. apply PyDict_set_In in Hin as [[-> ->]|Hin]; [|auto].
        eexists. split.
        { simpl. apply list_lookup_insert_eq. eapply lookup_lt_Some. exact Hn. }
        simpl. rewrite Hc, Hd. split; [exact Hk|]. split; [exists []|]; reflexivity.
    + split; [exact Hnd|exact Hother].
  - intros H. eapply popups_inv_frame; [apply add_notification_persists| |exact H].
    unfold add_notification. repeat case_match; reflexivity.
Qed.

Lemma new_object_inv n s :
  (notifications_inv s -> notifications_inv (set_objects (objects s ++ [n]) s)) /\
  (popups_inv s -> popups_inv (set_objects (objects s ++ [n]) s)).
Proof.
  split; intros H.
  - eapply notifications_inv_frame; [| |exact H]; [|reflexivity].
    eapply evolves_on_app. reflexivity.
  - eapply popups_inv_frame; [| |exact H]; [|reflexivity].
    apply evolves_persists. eapply evolves_on_app. reflexivity.
Qed.

Lemma inv_same_objects s s' :
  objects s' = objects s -> _notifications s' = _notifications s ->
  _popups s' = _popups s ->
  (notifications_inv s -> notifications_inv s') /\ (popups_inv s -> popups_inv s').
Proof.
  intros Ho Hn Hp. split; intros H.
  - eapply notifications_inv_frame; eauto. apply evolves_on_same_objects. exact Ho.
  - eapply popups_inv_frame; eauto.
    apply evolves_persists, evolves_on_same_objects. exact Ho.
Qed.

Lemma init_tail_inv r n s :
  objects s !! r = Some n ->
  Notification.closed_handlers n = [] -> Notification.dismissed_handlers n = [] ->
  inv s -> inv (snd (init_tail r n s)).
Proof.
  intros Hn Hc Hd [Hni Hpi]. unfold init_tail.
  pose proof (make_room_inv s) as [H1n H1p].
  pose proof (make_room_evolves (fun _ => True) s r n I Hn)
    as (n1 & Hn1 & Hp1 & _ & Hc1 & Hd1).
  destruct (make_room s) as [[u|e] s1]; cbn [snd] in *; [|split; auto].
  assert (Hid1 : Notification._id n1 = Notification._id n)
    by (unfold persisted in Hp1; congruence).
  pose proof (show_popup_inv r n s1 n1 Hn1 Hid1) as [H2n H2p].
  pose proof (show_popup_evolves (fun _ => True) r n s1 r n1 I Hn1)
    as (n2 & Hn2 & Hp2 & _ & Hc2 & Hd2).
  destruct (show_popup r n s1) as [[u'|e] s2]; cbn [snd] in *; [|split; auto].
  assert (Hc2' : Notification.closed_handlers n2 = []) by congruence.
  assert (Hd2' : Notification.dismissed_handlers n2 = []) by congruence.
  pose proof (add_notification_inv r n2 s2 Hn2 Hc2' Hd2') as [H3n H3p].
  destruct (add_notification r s2) as [[u''|e] s3]; cbn [snd] in *; [|split; auto].
  split.
  - eapply (proj1 (inv_same_objects s3 _ _ _ _)); auto.
  - eapply (proj2 (inv_same_objects s3 _ _ _ _)); auto.
  Unshelve. all: reflexivity.
Qed.

Lemma Notification_init_handlers id an ic su bo ac ur ti tm p n :
  Notification_init env id an ic su bo ac ur ti tm p = Returned n ->
  Notification.closed_handlers n = [] /\ Notification.dismissed_handlers n = [] /\
  Notification._popup n = p /\ Notification._id n = id.
Proof.
  unfold Notification_init. destruct (make_actions env ac); [|discriminate].
  intros [= <-]. auto.
Qed.

(** [__init_notification] in two parts: the image and the constructor,
    which may raise, and the statements that follow. *)
Lemma init_notification_split w id a s :
  let s1 := image_saved env id a s in
  (exists e, init_notification env w id a s = (Raised e, s) \/
             init_notification env w id a s = (Raised e, s1)) \/
  (exists acts,
     make_actions env (JList (map JStr (actions a))) = Returned acts /\
     (image_data (hints a) = None \/ savev_ok w = true) /\
     init_notification env w id a s =
       init_tail (length (objects s)) (built_notification env w id a s acts)
         (set_objects (objects s ++ [built_notification env w id a s acts]) s1)).
Proof.
  unfold init_notification, image_saved, built_notification, save_pixbuf,
    Notification_init, new_object. cbv zeta.
  destruct (image_data (hints a)) as [px|].
  - destruct (savev_ok w); [|left; eauto].
    destruct (make_actions env (JList (map JStr (actions a)))) as [acts|e];
      [|left; eauto].
    right. exists acts. auto.
  - destruct (make_actions env (JList (map JStr (actions a)))) as [acts|e];
      [|left; eauto].
    right. exists acts. auto.
Qed.

Lemma image_saved_same id a s :
  objects (image_saved env id a s) = objects s /\
  _notifications (image_saved env id a s) = _notifications s /\
  _popups (image_saved env id a s) = _popups s /\
  emitted (image_saved env id a s) = emitted s /\
  pending (image_saved env id a s) = pending s /\
  cache_file (image_saved env id a s) = cache_file s /\
  stable s (image_saved env id a s).
Proof.
  unfold image_saved. destruct (image_data (hints a)); simpl;
    repeat split; reflexivity.
Qed.

Lemma image_saved_inv id a s : inv s -> inv (image_saved env id a s).
Proof.
  intros [Hn Hp]. destruct (image_saved_same id a s) as (Ho & Hd & Hq & _).
  split; [eapply (proj1 (inv_same_objects s _ Ho Hd Hq))
         |eapply (proj2 (inv_same_objects s _ Ho Hd Hq))]; assumption.
Qed.

Lemma init_notification_inv w id a s :
  inv s -> inv (snd (init_notification env w id a s)).
Proof.
  intros Hinv.
  destruct (init_notification_split w id a s) as [[e [H|H]]|(acts & _ & _ & H)];
    rewrite H; cbn [snd]; [exact Hinv|apply image_saved_inv; exact Hinv|].
  destruct (image_saved_same id a s) as (Ho & _).
  apply init_tail_inv with (n := built_notification env w id a s acts);
    try reflexivity.
  - simpl. rewrite lookup_app_r by lia. rewrite Nat.sub_diag. reflexivity.
  - pose proof (image_saved_inv id a s Hinv) as [Hn Hp].
    rewrite <- Ho. split; apply new_object_inv; assumption.
Qed.

Lemma run_closed_handler_inv w r h s : inv s -> inv (run_closed_handler env w r h s).
Proof.
  intros [Hn Hp]. destruct h; simpl.
  - split; apply close_notification_inv; assumption.
  - apply init_notification_inv. split; assumption.
Qed.

Lemma deliver_inv w s : inv s -> inv (deliver env w s).
Proof.
  intros Hinv. unfold deliver. destruct (pending s) as [|e q]; [exact Hinv|].
  assert (Hinv1 : inv (set_pending q s)).
  { destruct Hinv as [Hn Hp].
    split; [eapply (proj1 (inv_same_objects s _ _ _ _))
           |eapply (proj2 (inv_same_objects s _ _ _ _))]; eauto. }
  destruct e; try exact Hinv1.
  - case_match; [|exact Hinv1].
    apply fold_left_inv; [|exact Hinv1]. intros; apply run_closed_handler_inv; auto.
  - case_match; [|exact Hinv1].
    apply fold_left_inv; [|exact Hinv1].
    intros s0 [] [Hn Hp]. simpl. split; apply dismiss_popup_inv; assumption.
  Unshelve. all: reflexivity.
Qed.

Lemma connect_closed_inv r h s : inv s -> inv (connect_closed r h s).
Proof.
  intros [[Hnd Hok] Hp]. unfold connect_closed.
  destruct (objects s !! r) as [n|] eqn:Hn; [|split; [split|]; assumption].
  split.
  - split; [exact Hnd|]. intros k r0 Hin. simpl.
    destruct (Hok k r0 Hin) as (n0 & Hn0 & Hk & (hs & Hc) & Hd).
    destruct (Nat.eq_dec r r0) as [<-|Hne].
    + exists (Notification.connect_closed h n). cbn [objects set_objects].
      rewrite list_lookup_insert_eq by (eapply lookup_lt_Some; eauto).
      assert (n0 = n) by congruence. subst n0. simpl.
      split; [reflexivity|]. split; [exact Hk|]. split; [|exact Hd].
      exists (hs ++ [h])%list. rewrite Hc. reflexivity.
    + exists n0. cbn [objects set_objects].
      rewrite list_lookup_insert_ne by exact Hne. eauto 10.
  - eapply popups_inv_frame; [| |exact Hp]; [|reflexivity].
    pose proof (connect_closed_persists r h s) as H.
    unfold connect_closed in H. rewrite Hn in H. exact H.
Qed.

Lemma Notify_inv w a s : inv s -> inv (snd (Notify env w a s)).
Proof.
  intros Hinv. unfold Notify, reply_u.
  assert (Hset : forall v, inv (set_id v s)).
  { intros v. destruct Hinv as [Hn Hp].
    split; [eapply (proj1 (inv_same_objects s _ _ _ _))
           |eapply (proj2 (inv_same_objects s _ _ _ _))]; eauto. }
  repeat case_match; simplify_eq; cbn [fst snd]; try exact Hinv.
  all: repeat match goal with
       | H : init_notification env ?w ?i ?a ?s = (_, ?s') |- inv ?s' =>
           replace s' with (snd (init_notification env w i a s)) by (rewrite H; reflexivity);
           clear H; apply init_notification_inv
       | |- inv (connect_closed _ _ _) => apply connect_closed_inv
       | |- inv (Notification_close _ _) =>
           destruct Hinv; split; apply Notification_close_inv; assumption
       | |- inv (set_id _ _) => apply Hset
       end; try exact Hinv.
  Unshelve. all: reflexivity.
Qed.

Lemma step_inv w o s : inv s -> inv (step env w o s).
Proof.
  intros Hinv. destruct o; simpl.
  - apply Notify_inv. exact Hinv.
  - unfold CloseNotification. case_match; [|exact Hinv].
    destruct Hinv; split; apply Notification_close_inv; assumption.
  - unfold clear_all. apply fold_left_inv; [|exact Hinv].
    intros s0 r [? ?]; split; apply Notification_close_inv; assumption.
  - destruct Hinv; split; apply Notification_close_inv; assumption.
  - destruct Hinv; split; apply Notification_dismiss_inv; assumption.
  - apply deliver_inv. exact Hinv.
  - destruct Hinv as [Hn Hp].
    split; [eapply (proj1 (inv_same_objects s _ _ _ _))
           |eapply (proj2 (inv_same_objects s _ _ _ _))]; eauto.
  - destruct Hinv as [Hn Hp].
    split; [eapply (proj1 (inv_same_objects s _ _ _ _))
           |eapply (proj2 (inv_same_objects s _ _ _ _))]; eauto.
  - destruct Hinv as [Hn Hp].
    split; [eapply (proj1 (inv_same_objects s _ _ _ _))
           |eapply (proj2 (inv_same_objects s _ _ _ _))]; eauto.
  Unshelve. all: reflexivity.
Qed.

(** ** Loading *)

Lemma Notification_from_record_new j n :
  Notification_from_record env j = Returned n ->
  Notification.closed_handlers n = [] /\ Notification.dismissed_handlers n = [] /\
  Notification._popup n = false.
Proof.
  unfold Notification_from_record. repeat case_match; try discriminate.
  intros Hinit. apply Notification_init_handlers in Hinit. tauto.
Qed.

Lemma load_each_inv l : forall s, inv s -> inv (snd (load_each env l s)).
Proof.
  induction l as [|j l IH]; intros s Hinv; simpl; [exact Hinv|].
  destruct (Notification_from_record env j) as [n|e] eqn:Hrec; [|exact Hinv].
  destruct (Notification_from_record_new j n Hrec) as (Hc & Hd & _).
  unfold new_object.
  assert (Hinv2 : inv (set_objects (objects s ++ [n]) s))
    by (destruct Hinv; split; apply new_object_inv; assumption).
  assert (Hn : objects (set_objects (objects s ++ [n]) s) !! length (objects s) = Some n).
  { simpl. rewrite lookup_app_r by lia. rewrite Nat.sub_diag. reflexivity. }
  pose proof (add_notification_inv _ n _ Hn Hc Hd) as [H1 H2].
  destruct (add_notification (length (objects s)) (set_objects (objects s ++ [n]) s))
    as [[u|e] s2]; cbn [snd] in *.
  - apply IH. destruct Hinv2. split; auto.
  - destruct Hinv2. split; auto.
Qed.

Lemma NotificationService_init_inv dnd0 t0 m0 file imgs :
  inv (NotificationService_init env dnd0 t0 m0 file imgs).
Proof.
  unfold NotificationService_init, load_notifications, try_load.
  set (s0 := {| _id := JInt 0; _notifications := []; _popups := []; objects := [];
                dnd := dnd0; popup_timeout := t0; max_popups_count := m0;
                cache_file := file; images := imgs; emitted := []; pending := [] |}).
  assert (H0 : inv s0).
  { split; split; simpl; try apply NoDup_nil_2; intros ? ? []. }
  assert (Hframe : forall s s', objects s' = objects s ->
            _notifications s' = _notifications s -> _popups s' = _popups s ->
            inv s -> inv s').
  { intros s s' Ho Hn Hp [? ?].
    split; [eapply (proj1 (inv_same_objects s _ Ho Hn Hp))
           |eapply (proj2 (inv_same_objects s _ Ho Hn Hp))]; assumption. }
  simpl cache_file. destruct file as [[| | | | | |log_file]|];
    try (eapply Hframe; [| | |exact H0]; reflexivity).
  destruct (py_iter (default (JList []) (jget "notifications" log_file))) as [l|];
    [|eapply Hframe; [| | |exact H0]; reflexivity].
  pose proof (load_each_inv l s0 H0) as Hl.
  destruct (load_each env l s0) as [[u|e] s1]; cbn [snd] in Hl;
    (eapply Hframe; [| | |exact Hl]; reflexivity).
Qed.

Lemma reachable_inv s : reachable env s -> inv s.
Proof.
  induction 1; [apply NotificationService_init_inv|apply step_inv; assumption].
Qed.

(** ** Dismissal *)

Lemma Notification_dismiss_no_popup r s :
  popup r s = false -> Notification_dismiss r s = s.
Proof.
  unfold popup, Notification_dismiss. destruct (objects s !! r) as [n|]; [|reflexivity].
  intros ->. reflexivity.
Qed.

Lemma Notification_dismiss_popup r s n :
  objects s !! r = Some n -> Notification._popup n = true ->
  Notification_dismiss r s =
    emit (notify_popup r)
      (emit (dismissed r)
         (set_objects (<[r := Notification.set_popup false n]> (objects s)) s)).
Proof. unfold Notification_dismiss. intros -> ->. reflexivity. Qed.

Lemma Notification_dismiss_popup_false r s : popup r (Notification_dismiss r s) = false.
Proof.
  destruct (popup r s) eqn:Hp.
  - unfold popup in Hp. destruct (objects s !! r) as [n|] eqn:Hn; [|discriminate].
    rewrite (Notification_dismiss_popup r s n Hn Hp). unfold popup. simpl.
    rewrite list_lookup_insert_eq by (eapply lookup_lt_Some; eauto). reflexivity.
  - rewrite Notification_dismiss_no_popup by exact Hp. exact Hp.
Qed.

Lemma count_dismissed_app r l1 l2 :
  count_dismissed r (l1 ++ l2) = (count_dismissed r l1 + count_dismissed r l2)%nat.
Proof. unfold count_dismissed. rewrite List.filter_app, length_app. reflexivity. Qed.

Lemma persists_popup_false s s' (r : ref) :
  persists s s' -> (r < length (objects s))%nat -> popup r s = false ->
  popup r s' = false.
Proof.
  intros Hp Hlt Hf. unfold popup in *.
  destruct (objects s !! r) as [n|] eqn:Hn.
  2:{ apply lookup_ge_None in Hn. lia. }
  destruct (Hp r n Hn) as (n' & Hn' & _ & Hf'). rewrite Hn'. auto.
Qed.

(** ** The statements of the specification *)

(** C8.  [CloseNotification] with an id that is not a key of the full
    collection changes nothing: the state after the call is the state
    before it, so no signal is emitted, none waits for delivery that did
    not wait before, and the collection, the popups and the cache file are
    as they were. *)
Theorem CloseNotification_unknown_id_noop id s :
  ~ In (KInt id) (PyDict.keys (_notifications s)) ->
  CloseNotification id s = s /\
  emitted (CloseNotification id s) = emitted s /\
  pending (CloseNotification id s) = pending s /\
  _notifications (CloseNotification id s) = _notifications s /\
  _popups (CloseNotification id s) = _popups s /\
  cache_file (CloseNotification id s) = cache_file s.
Proof.
  intros Hnot.
  assert (H : CloseNotification id s = s).
  { unfold CloseNotification, get_notification.
    rewrite PyDict_not_In_get by exact Hnot. reflexivity. }
  rewrite H. repeat split.
Qed.

(** C9 (as amended).  [dismiss] is idempotent: a second [dismiss] leaves
    the whole state, hence the notification and the popups, as the first
    left it.  Two calls emit "dismissed" once when the notification was a
    popup and not at all when it was none, and as many "dismissed" signals
    are added to those that wait for delivery.  After [dismiss] the
    notification is no popup, and no step of the daemon turns a
    notification that is no popup into one. *)
Theorem dismiss_idempotent r s :
  Notification_dismiss r (Notification_dismiss r s) = Notification_dismiss r s /\
  count_dismissed r (emitted (Notification_dismiss r (Notification_dismiss r s))) =
    (count_dismissed r (emitted s) + if popup r s then 1 else 0)%nat /\
  count_dismissed r (pending (Notification_dismiss r (Notification_dismiss r s))) =
    (count_dismissed r (pending s) + if popup r s then 1 else 0)%nat /\
  popup r (Notification_dismiss r s) = false /\
  (forall w o (r' : ref), (r' < length (objects s))%nat ->
     popup r' s = false -> popup r' (step env w o s) = false).
Proof.
  pose proof (Notification_dismiss_popup_false r s) as Hfalse.
  assert (Hidem : Notification_dismiss r (Notification_dismiss r s) = Notification_dismiss r s)
    by (apply Notification_dismiss_no_popup; exact Hfalse).
  split; [exact Hidem|]. rewrite Hidem.
  assert (Hcount : forall tr,
            count_dismissed r ((tr ++ [dismissed r]) ++ [notify_popup r]) =
            (count_dismissed r tr + 1)%nat).
  { intros tr. rewrite !count_dismissed_app. unfold count_dismissed. simpl.
    rewrite Nat.eqb_refl. simpl. lia. }
  split; [|split; [|split; [exact Hfalse|]]].
  - destruct (popup r s) eqn:Hp.
    + unfold popup in Hp. destruct (objects s !! r) as [n|] eqn:Hn; [|discriminate].
      rewrite (Notification_dismiss_popup r s n Hn Hp). simpl. apply Hcount.
    + rewrite Notification_dismiss_no_popup by exact Hp. lia.
  - destruct (popup r s) eqn:Hp.
    + unfold popup in Hp. destruct (objects s !! r) as [n|] eqn:Hn; [|discriminate].
      rewrite (Notification_dismiss_popup r s n Hn Hp). simpl. apply Hcount.
    + rewrite Notification_dismiss_no_popup by exact Hp. lia.
  - intros w o r' Hlt Hp. eapply persists_popup_false; eauto. apply step_persists.
Qed.

(** ** Loading, and popups *)

Lemma load_each_popups l : forall s,
  _popups (snd (load_each env l s)) = _popups s /\
  pending (snd (load_each env l s)) = pending s /\
  emitted (snd (load_each env l s)) = emitted s /\
  (Forall (fun n => Notification._popup n = false) (objects s) ->
   Forall (fun n => Notification._popup n = false) (objects (snd (load_each env l s)))).
Proof.
  induction l as [|j l IH]; intros s; simpl; [auto|].
  destruct (Notification_from_record env j) as [n|e] eqn:Hj; [|auto].
  destruct (Notification_from_record_new j n Hj) as (_ & _ & Hpop).
  unfold new_object, add_notification. cbn [objects set_objects].
  rewrite lookup_app_r by lia. rewrite Nat.sub_diag. cbn [lookup list_lookup].
  set (n' := Notification.connect_dismissed _ _).
  assert (Hall : Forall (fun n => Notification._popup n = false) (objects s) ->
            Forall (fun n => Notification._popup n = false)
                   (<[length (objects s) := n']> (objects s ++ [n])%list)).
  { intros H0. apply Forall_insert; [|exact Hpop].
    apply Forall_app. split; [exact H0|]. constructor; [exact Hpop|constructor]. }
  destruct (hash_key (Notification._id n)) as [k|]; cbn [snd].
  - destruct (IH (set_notifications (PyDict.set k (length (objects s)) (_notifications s))
                    (set_objects (<[length (objects s) := n']> (objects s ++ [n])%list)
                       (set_objects (objects s ++ [n])%list s)))) as (H1 & H2 & H3 & H4).
    simpl in *. repeat split; auto.
  - simpl. repeat split; auto.
Qed.

(** C10.  Whatever the cache file holds, right after the service is built
    the popup list is empty, and every object the loader has built, in
    particular every notification it has put into the full collection, has
    [popup = False]. *)
Theorem loaded_notifications_are_no_popups dnd0 popup_timeout0 max_popups_count0 file imgs :
  let s := NotificationService_init env dnd0 popup_timeout0 max_popups_count0 file imgs in
  popups s = [] /\
  Forall (fun n => Notification._popup n = false) (objects s) /\
  Forall (fun n => Notification._popup n = false) (notification_objects s).
Proof.
  intros s.
  assert (H : _popups s = [] /\
              Forall (fun n => Notification._popup n = false) (objects s)).
  { subst s. unfold NotificationService_init, load_notifications, try_load.
    cbn [cache_file].
    destruct file as [[| | | | | |kv]|]; simpl; try (split; [reflexivity|constructor]).
    destruct (py_iter _) as [l|]; simpl; [|split; [reflexivity|constructor]].
    match goal with |- context [load_each env l ?s0] =>
      pose proof (load_each_popups l s0) as (H1 & _ & _ & H2);
      destruct (load_each env l s0) as [[u|e] s1] end; simpl in *;
      (split; [exact H1|apply H2; constructor]). }
  destruct H as [Hpop Hobj].
  split; [unfold popups; rewrite Hpop; reflexivity|]. split; [exact Hobj|].
  rewrite Forall_forall in *. intros n Hn.
  unfold notification_objects in Hn.
  apply list_elem_of_omap in Hn as (r & _ & Hr).
  apply Hobj. eapply list_elem_of_lookup_2. exact Hr.
Qed.

(** ** The counter *)

Lemma Notify_new_id w a s :
  replaces_id a = 0 -> is_float (_id s) = false ->
  match as_int (_id s) with
  | Some c =>
      _id (snd (Notify env w a s)) = JInt (c + 1) /\
      forall id, fst (Notify env w a s) = Returned id -> id = c + 1
  | None =>
      Notify env w a s = (Raised TypeError, s)
  end.
Proof.
  intros H0 Hf. unfold Notify. rewrite H0. cbn [Z.eqb].
  assert (Hint : forall c, py_add_one env (_id s) = Returned (JInt (c + 1)) ->
            _id (snd (match init_notification env w (JInt (c + 1)) a
                              (set_id (JInt (c + 1)) s) with
                      | (Returned _, s1) => reply_u env (JInt (c + 1)) s1
                      | (Raised e, s1) => (Raised e, s1)
                      end)) = JInt (c + 1) /\
            forall id, fst (match init_notification env w (JInt (c + 1)) a
                                    (set_id (JInt (c + 1)) s) with
                            | (Returned _, s1) => reply_u env (JInt (c + 1)) s1
                            | (Raised e, s1) => (Raised e, s1)
                            end) = Returned id -> id = c + 1).
  { intros c _.
    pose proof (init_notification_stable w (JInt (c + 1)) a (set_id (JInt (c + 1)) s))
      as [Hid _].
    destruct (init_notification _ _ _ _ _) as [[u|e] s1]; simpl in *.
    - unfold reply_u, pack_u. destruct (is_uint32 (c + 1)); simpl;
        split; auto; congruence.
    - split; [exact Hid|discriminate]. }
  destruct (_id s) as [|b|z|f|?|?|?]; try discriminate; simpl; try reflexivity.
  - apply (Hint (if b then 1 else 0)). reflexivity.
  - apply (Hint z). reflexivity.
Qed.

Lemma Notify_counter w a s c :
  as_int (_id s) = Some c ->
  exists c', as_int (_id (snd (Notify env w a s))) = Some c' /\ c <= c'.
Proof.
  intros Hc.
  destruct (Z.eq_dec (replaces_id a) 0) as [H0|Hne].
  - assert (Hf : is_float (_id s) = false) by (destruct (_id s); simpl in *; congruence).
    pose proof (Notify_new_id w a s H0 Hf) as H. rewrite Hc in H.
    destruct H as [-> _]. exists (c + 1). split; [reflexivity|lia].
  - exists c. split; [|lia]. rewrite <- Hc. f_equal.
    unfold Notify, reply_u. destruct (Z.eqb_spec (replaces_id a) 0); [contradiction|].
    destruct (get_notification _ _) as [old|].
    + pose proof (Notification_close_stable old s) as [H1 _].
      pose proof (connect_closed_stable old (on_closed_init a (JInt (replaces_id a)))
                    (Notification_close old s)) as [H2 _].
      repeat case_match; simpl; congruence.
    + pose proof (init_notification_stable w (JInt (replaces_id a)) a s) as [H1 _].
      destruct (init_notification _ _ _ _ _) as [[u|e] s1]; simpl in *;
        repeat case_match; simpl; congruence.
Qed.

Lemma step_counter w o s c :
  as_int (_id s) = Some c ->
  exists c', as_int (_id (step env w o s)) = Some c' /\ c <= c'.
Proof.
  intros Hc. destruct o; simpl; try (exists c; split; [exact Hc|lia]).
  - apply Notify_counter. exact Hc.
  - pose proof (CloseNotification_stable id s) as [H _]. rewrite H. exists c. split; [auto|lia].
  - pose proof (clear_all_stable s) as [H _]. rewrite H. exists c. split; [auto|lia].
  - pose proof (Notification_close_stable r s) as [H _]. rewrite H. exists c. split; [auto|lia].
  - pose proof (Notification_dismiss_stable r s) as [H _]. rewrite H. exists c. split; [auto|lia].
  - pose proof (deliver_stable w s) as [H _]. rewrite H. exists c. split; [auto|lia].
Qed.

Lemma Notify_all_ids calls : forall s c,
  Forall (fun c => replaces_id (snd c) = 0) calls ->
  as_int (_id s) = Some c ->
  Forall (fun id => c < id) (fst (Notify_all env calls s)) /\
  StronglySorted Z.lt (fst (Notify_all env calls s)) /\
  exists c', as_int (_id (snd (Notify_all env calls s))) = Some c' /\ c <= c'.
Proof.
  induction calls as [|[w a] calls IH]; intros s c Hcalls Hc; simpl.
  - split; [constructor|]. split; [constructor|]. exists c. split; [exact Hc|lia].
  - apply Forall_cons in Hcalls as [H0 Hrest]. simpl in H0.
    assert (Hf : is_float (_id s) = false) by (destruct (_id s); simpl in *; congruence).
    pose proof (Notify_new_id w a s H0 Hf) as H. rewrite Hc in H.
    destruct H as [Hid Hret].
    destruct (Notify env w a s) as [[id|e] s1] eqn:HN; simpl in *.
    + specialize (Hret id eq_refl). subst id.
      destruct (IH s1 (c + 1) Hrest) as (Hgt & Hsorted & c' & Hc' & Hle);
        [rewrite Hid; reflexivity|].
      destruct (Notify_all env calls s1) as [ids s2]; simpl in *.
      split; [|split].
      * constructor; [lia|]. eapply Forall_impl; [exact Hgt|]. simpl. intros; lia.
      * constructor; [exact Hsorted|exact Hgt].
      * exists c'. split; [exact Hc'|lia].
    + destruct (IH s1 (c + 1) Hrest) as (Hgt & Hsorted & c' & Hc' & Hle);
        [rewrite Hid; reflexivity|].
      split; [|split]; auto.
      * eapply Forall_impl; [exact Hgt|]. simpl. intros; lia.
      * exists c'. split; [exact Hc'|lia].
Qed.

Lemma Notify_all_no_counter calls : forall s,
  Forall (fun c => replaces_id (snd c) = 0) calls ->
  is_float (_id s) = false -> as_int (_id s) = None ->
  Notify_all env calls s = ([], s).
Proof.
  induction calls as [|[w a] calls IH]; intros s Hcalls Hf Hc; simpl; [reflexivity|].
  apply Forall_cons in Hcalls as [H0 Hrest]. simpl in H0.
  pose proof (Notify_new_id w a s H0 Hf) as H. rewrite Hc in H. rewrite H.
  apply IH; assumption.
Qed.

Lemma StronglySorted_lt_NoDup (l : list Z) : StronglySorted Z.lt l -> NoDup l.
Proof.
  induction 1 as [|x l Hs IH Hall]; constructor; [|exact IH].
  intros Hin. apply list_elem_of_In in Hin.
  rewrite List.Forall_forall in Hall. specialize (Hall x Hin). lia.
Qed.

(** C6.  For every finite sequence of [Notify] calls with [replaces_id = 0],
    from any state whose counter [_id] is not a float: the ids replied are
    strictly increasing, so none comes twice, and each is above the
    counter the run started with; the counter does not go down over the
    run, nor in any single step of the daemon.  A counter that is no
    number (only a cache file written by hand gives one) makes every such
    call raise, so that no id is replied and the counter stays. *)
Theorem Notify_ids_strictly_increasing calls s :
  Forall (fun c => replaces_id (snd c) = 0) calls ->
  is_float (_id s) = false ->
  StronglySorted Z.lt (fst (Notify_all env calls s)) /\
  NoDup (fst (Notify_all env calls s)) /\
  (forall c, as_int (_id s) = Some c ->
     Forall (fun id => c < id) (fst (Notify_all env calls s)) /\
     exists c', as_int (_id (snd (Notify_all env calls s))) = Some c' /\ c <= c') /\
  (as_int (_id s) = None -> Notify_all env calls s = ([], s)) /\
  (forall w o s0 c, as_int (_id s0) = Some c ->
     exists c', as_int (_id (step env w o s0)) = Some c' /\ c <= c').
Proof.
  intros Hcalls Hf.
  assert (Hs : StronglySorted Z.lt (fst (Notify_all env calls s))).
  { destruct (as_int (_id s)) as [c|] eqn:Hc.
    - apply (Notify_all_ids calls s c Hcalls Hc).
    - rewrite (Notify_all_no_counter calls s Hcalls Hf Hc). constructor. }
  split; [exact Hs|]. split; [apply StronglySorted_lt_NoDup; exact Hs|].
  split; [|split].
  - intros c Hc. destruct (Notify_all_ids calls s c Hcalls Hc) as (H1 & _ & H2). auto.
  - intros Hc. apply Notify_all_no_counter; assumption.
  - intros w o s0 c Hc. apply step_counter. exact Hc.
Qed.

(** ** What a successful [__init_notification] has built *)

Lemma read_write_image path px fs : read_image path (write_image path px fs) = Some px.
Proof.
  induction fs as [|[p old] fs IH]; simpl.
  - rewrite String.eqb_refl. reflexivity.
  - destruct (String.eqb p path) eqn:Heq; simpl; rewrite Heq; [reflexivity|exact IH].
Qed.

(** What a call of [dismiss] changes: the [popup] flag of its object, and
    the signals. *)
Lemma Notification_dismiss_effects r s :
  let s' := Notification_dismiss r s in
  length (objects s') = length (objects s) /\
  images s' = images s /\ cache_file s' = cache_file s /\
  (forall r0, r0 <> r -> objects s' !! r0 = objects s !! r0) /\
  exists tr, emitted s' = (emitted s ++ tr)%list /\ pending s' = (pending s ++ tr)%list.
Proof.
  cbv zeta. unfold Notification_dismiss.
  destruct (objects s !! r) as [n|] eqn:Hn.
  2:{ repeat split; auto. exists []. rewrite !app_nil_r. auto. }
  destruct (Notification._popup n).
  2:{ repeat split; auto. exists []. rewrite !app_nil_r. auto. }
  simpl. split; [apply length_insert|]. repeat split; auto.
  - intros r0 Hne. apply list_lookup_insert_ne. auto.
  - exists [dismissed r; notify_popup r]. rewrite <- !app_assoc. auto.
Qed.

Lemma make_room_returned s u s1 :
  make_room s = (Returned u, s1) ->
  s1 = s \/ exists l, last (popups s) = Some l /\ s1 = Notification_dismiss l s.
Proof.
  unfold make_room. repeat case_match; intros [= <-]; eauto.
Qed.

Lemma make_room_effects s :
  let s' := snd (make_room s) in
  length (objects s') = length (objects s) /\
  images s' = images s /\ cache_file s' = cache_file s /\
  (forall r0, ~ In r0 (popups s) -> objects s' !! r0 = objects s !! r0) /\
  exists tr, emitted s' = (emitted s ++ tr)%list /\ pending s' = (pending s ++ tr)%list.
Proof.
  cbv zeta.
  assert (Hsame : length (objects s) = length (objects s) /\
            images s = images s /\ cache_file s = cache_file s /\
            (forall r0, ~ In r0 (popups s) -> objects s !! r0 = objects s !! r0) /\
            exists tr, emitted s = (emitted s ++ tr)%list /\
                       pending s = (pending s ++ tr)%list).
  { repeat split; auto. exists []. rewrite !app_nil_r. auto. }
  unfold make_room. repeat case_match; cbn [snd]; try exact Hsame.
  destruct (Notification_dismiss_effects n s) as (E1 & E2 & E3 & E4 & E5).
  repeat split; auto.
  intros r0 Hnot. apply E4. intros ->. apply Hnot.
  apply list_elem_of_In. eapply last_Some_elem_of. eassumption.
Qed.

Lemma init_tail_returned r n s u s' :
  objects s !! r = Some n ->
  Notification.closed_handlers n = [] -> Notification.dismissed_handlers n = [] ->
  init_tail r n s = (Returned u, s') ->
  exists k n',
    hash_key (Notification._id n) = Some k /\
    objects s' !! r = Some n' /\ persisted n' = persisted n /\
    Notification.closed_handlers n' = [on_closed_close_notification] /\
    Notification.dismissed_handlers n' = [on_dismissed_dismiss_popup] /\
    (~ In r (popups s) -> Notification._popup n' = Notification._popup n) /\
    length (objects s') = length (objects s) /\
    _notifications s' = PyDict.set k r (_notifications s) /\
    _popups s' = (if Notification._popup n then PyDict.set k r (_popups s)
                  else _popups s) /\
    images s' = images s /\
    file_in_sync s' /\
    exists tr,
      emitted s' = (emitted s ++ tr ++ [notified r; notify_notifications])%list /\
      pending s' = (pending s ++ tr ++ [notified r; notify_notifications])%list.
Proof.
  intros Hn Hc Hd. unfold init_tail.
  pose proof (make_room_effects s) as (Hlen1 & Himg1 & _ & Hobj1 & tr1 & Hem1 & Hpe1).
  pose proof (make_room_dicts s) as [Hnot1 Hpop1].
  pose proof (make_room_evolves (fun _ => True) s r n I Hn)
    as (n1 & Hn1 & Hp1 & _ & Hc1 & Hd1).
  destruct (make_room s) as [[u1|e] s1]; cbn [snd] in *; [|discriminate].
  assert (Hid1 : Notification._id n1 = Notification._id n)
    by (unfold persisted in Hp1; congruence).
  unfold show_popup, add_notification.
  destruct (Notification._popup n) eqn:Hpop.
  - destruct (hash_key (Notification._id n)) as [k|] eqn:Hk; [|discriminate].
    cbn [objects emit set_popups]. rewrite Hn1, Hid1, Hk.
    intros [= _ <-]. exists k. eexists. split; [reflexivity|].
    split; [cbn; apply list_lookup_insert_eq; eapply lookup_lt_Some; exact Hn1|].
    cbn. rewrite Hc1, Hd1, Hc, Hd. split; [exact Hp1|].
    split; [reflexivity|]. split; [reflexivity|].
    split.
    { intros Hnot. specialize (Hobj1 r Hnot). rewrite Hn1, Hn in Hobj1.
      injection Hobj1 as ->. exact Hpop. }
    split; [rewrite length_insert; exact Hlen1|].
    split; [rewrite Hnot1; reflexivity|]. split; [rewrite Hpop1; reflexivity|].
    split; [exact Himg1|]. split; [reflexivity|].
    exists (tr1 ++ [new_popup r; notify_popups])%list.
    rewrite Hem1, Hpe1. rewrite <- !app_assoc. split; reflexivity.
  - rewrite Hn1, Hid1.
    destruct (hash_key (Notification._id n)) as [k|] eqn:Hk; [|discriminate].
    intros [= _ <-]. exists k. eexists. split; [reflexivity|].
    split; [cbn; apply list_lookup_insert_eq; eapply lookup_lt_Some; exact Hn1|].
    cbn. rewrite Hc1, Hd1, Hc, Hd. split; [exact Hp1|].
    split; [reflexivity|]. split; [reflexivity|].
    split.
    { intros Hnot. specialize (Hobj1 r Hnot). rewrite Hn1, Hn in Hobj1.
      injection Hobj1 as ->. exact Hpop. }
    split; [rewrite length_insert; exact Hlen1|].
    split; [rewrite Hnot1; reflexivity|]. split; [exact Hpop1|].
    split; [exact Himg1|]. split; [reflexivity|].
    exists tr1. rewrite Hem1, Hpe1. rewrite <- !app_assoc. split; reflexivity.
Qed.

(** What a call of [__init_notification] that returns has done. *)
Lemma init_notification_returned w id a s u s' :
  init_notification env w id a s = (Returned u, s') ->
  exists k acts n',
    let r := length (objects s) in
    let n := built_notification env w id a s acts in
    hash_key id = Some k /\
    make_actions env (JList (map JStr (actions a))) = Returned acts /\
    objects s' !! r = Some n' /\ persisted n' = persisted n /\
    Notification.closed_handlers n' = [on_closed_close_notification] /\
    Notification.dismissed_handlers n' = [on_dismissed_dismiss_popup] /\
    (~ In r (popups s) -> Notification._popup n' = negb (dnd s)) /\
    length (objects s') = S (length (objects s)) /\
    _notifications s' = PyDict.set k r (_notifications s) /\
    _popups s' = (if dnd s then _popups s else PyDict.set k r (_popups s)) /\
    images s' = images (image_saved env id a s) /\
    file_in_sync s' /\
    exists tr,
      emitted s' = (emitted s ++ tr ++ [notified r; notify_notifications])%list /\
      pending s' = (pending s ++ tr ++ [notified r; notify_notifications])%list.
Proof.
  intros Hinit.
  destruct (init_notification_split w id a s) as [[e [H|H]]|(acts & Hacts & _ & H)];
    rewrite H in Hinit; [discriminate..|].
  destruct (image_saved_same id a s) as (Ho & Hno & Hpo & Hem & Hpe & _ & _).
  eapply init_tail_returned in Hinit;
    [| cbn [objects set_objects]; rewrite lookup_app_r by lia;
       rewrite Nat.sub_diag; reflexivity
     | reflexivity | reflexivity].
  destruct Hinit as (k & n' & Hk & Hn' & Hp & Hc & Hd & Hpop & Hlen & Hnot & Hpops &
                     Himg & Hsync & tr & Htr & Htr').
  cbn [built_notification Notification._id Notification._popup
       objects set_objects _notifications _popups images emitted pending popups] in *.
  exists k, acts, n'. cbv zeta.
  split; [exact Hk|]. split; [exact Hacts|]. split; [exact Hn'|].
  split; [exact Hp|]. split; [exact Hc|]. split; [exact Hd|].
  split; [intros Hnin; apply Hpop; unfold popups in *; cbn [_popups set_objects];
          rewrite Hpo; exact Hnin|].
  split; [rewrite Hlen, length_app; simpl; lia|].
  split; [rewrite Hnot, Hno; reflexivity|].
  split; [rewrite Hpops, Hpo; destruct (dnd s); reflexivity|].
  split; [exact Himg|]. split; [exact Hsync|].
  exists tr. rewrite Htr, Htr', Hem, Hpe. split; reflexivity.
Qed.

(** A [Notify] call that builds its notification and replies has run
    [__init_notification] with the id it replies. *)
Lemma Notify_built w a s id s' :
  Notify env w a s = (Returned id, s') ->
  replaces_id a = 0 \/ get_notification (replaces_id a) s = None ->
  exists idv s0 u,
    init_notification env w idv a s0 = (Returned u, s') /\
    pack_u env idv = Returned id /\
    ((replaces_id a = 0 /\ py_add_one env (_id s) = Returned idv /\ s0 = set_id idv s) \/
     (replaces_id a <> 0 /\ idv = JInt (replaces_id a) /\ s0 = s)).
Proof.
  unfold Notify, reply_u. intros HN Hbuild.
  destruct (Z.eqb_spec (replaces_id a) 0) as [H0|Hne].
  - destruct (py_add_one env (_id s)) as [idv|e] eqn:Hadd; [|discriminate].
    destruct (init_notification env w idv a (set_id idv s)) as [[u|e] s1] eqn:Hi;
      [|discriminate].
    destruct (pack_u env idv) as [z|e] eqn:Hpack; [|discriminate].
    injection HN as <- <-. exists idv, (set_id idv s), u. auto 10.
  - destruct Hbuild as [H0|Hnone]; [contradiction|]. rewrite Hnone in HN.
    destruct (init_notification env w (JInt (replaces_id a)) a s) as [[u|e] s1] eqn:Hi;
      [|discriminate].
    destruct (pack_u env (JInt (replaces_id a))) as [z|e] eqn:Hpack; [|discriminate].
    injection HN as <- <-. exists (JInt (replaces_id a)), s, u. auto 10.
Qed.

(** With a counter that is no float, the id replied is the one the
    notification is built with. *)
Lemma Notify_built_int w a s id s' :
  Notify env w a s = (Returned id, s') ->
  replaces_id a = 0 \/ get_notification (replaces_id a) s = None ->
  (replaces_id a = 0 -> is_float (_id s) = false) ->
  exists s0 u,
    init_notification env w (JInt id) a s0 = (Returned u, s') /\
    is_uint32 id = true /\
    ((replaces_id a = 0 /\ s0 = set_id (JInt id) s) \/
     (replaces_id a <> 0 /\ id = replaces_id a /\ s0 = s)).
Proof.
  intros HN Hbuild Hf.
  destruct (Notify_built w a s id s' HN Hbuild) as (idv & s0 & u & Hi & Hpack & Hcase).
  assert (Hint : exists z, idv = JInt z).
  { destruct Hcase as [(H0 & Hadd & _)|(_ & -> & _)]; [|eauto].
    specialize (Hf H0). unfold py_add_one in Hadd.
    destruct (_id s); try discriminate; injection Hadd as <-; eauto. }
  destruct Hint as [z ->]. unfold pack_u in Hpack.
  destruct (is_uint32 z) eqn:Hu; [|discriminate]. injection Hpack as ->.
  exists s0, u. split; [exact Hi|]. split; [exact Hu|].
  destruct Hcase as [(H0 & _ & ->)|(Hne & [= ->] & ->)]; auto.
Qed.

(** C7 (as amended).  When a [Notify] call builds its notification (that
    is, [replaces_id] is 0 or names no notification of the collection) and
    replies with an id, the notification under that id has this icon: if
    the hints carry ["image-data"], the path of the per-id image file
    [<cache>/notifications/images/<id>], which then holds the image,
    whatever [app_icon] is; if the hints carry none, [app_icon] as it is,
    the empty string included.  The notification has the id [idv] that the
    reply packs: [JInt id], the id replied, unless the counter of a
    hand-written cache file is a float; its entry of the collection is the
    one that [get_notification id] finds then. *)
Theorem Notify_icon w a s id s' :
  Notify env w a s = (Returned id, s') ->
  replaces_id a = 0 \/ get_notification (replaces_id a) s = None ->
  exists idv k r n,
    pack_u env idv = Returned id /\
    ((replaces_id a = 0 -> is_float (_id s) = false) -> idv = JInt id) /\
    hash_key idv = Some k /\ PyDict.get k (_notifications s') = Some r /\
    objects s' !! r = Some n /\ Notification._id n = idv /\
    match image_data (hints a) with
    | Some px =>
        Notification._icon n =
          JStr (NOTIFICATIONS_IMAGE_DATA env +:+ "/" +:+ py_str env idv) /\
        read_image (NOTIFICATIONS_IMAGE_DATA env +:+ "/" +:+ py_str env idv)
          (images s') = Some px
    | None => Notification._icon n = JStr (app_icon a)
    end.
Proof.
  intros HN Hbuild.
  destruct (Notify_built w a s id s' HN Hbuild) as (idv & s0 & u & Hi & Hpack & Hcase).
  destruct (init_notification_returned w idv a s0 u s' Hi)
    as (k & acts & n' & Hk & _ & Hn' & Hp & _ & _ & _ & _ & Hnot & _ & Himg & _).
  cbv zeta in *.
  exists idv, k, (length (objects s0)), n'.
  split; [exact Hpack|].
  split.
  { intros Hf.
    assert (Hint : exists z, idv = JInt z).
    { destruct Hcase as [(H0 & Hadd & _)|(_ & -> & _)]; [|eauto].
      specialize (Hf H0). unfold py_add_one in Hadd.
      destruct (_id s); try discriminate; injection Hadd as <-; eauto. }
    destruct Hint as [z ->]. unfold pack_u in Hpack.
    destruct (is_uint32 z); [|discriminate]. congruence. }
  split; [exact Hk|].
  split; [rewrite Hnot; apply PyDict_set_get|].
  split; [exact Hn'|].
  unfold persisted, built_notification in Hp. simpl in Hp.
  injection Hp as Hid _ Hicon _ _ _ _ _ _.
  split; [exact Hid|].
  rewrite Hicon, Himg. unfold image_saved.
  destruct (image_data (hints a)) as [px|]; [|reflexivity].
  split; [reflexivity|]. simpl. apply read_write_image.
Qed.

(** ** Saving and loading *)

Lemma pair_up_flatten (acts : list NotificationAction.t) :
  pair_up env
    (flat_map (fun i => [JStr (NotificationAction._id i);
                         JStr (NotificationAction._label i)]) acts)
  = Returned acts.
Proof.
  induction acts as [|[i l] acts IH]; simpl; [reflexivity|].
  rewrite IH. reflexivity.
Qed.

(** The loader rebuilds a saved record with the fields it was saved with. *)
Lemma Notification_from_record_json n :
  exists m, Notification_from_record env (Notification.json n) = Returned m /\
            persisted m = persisted n.
Proof.
  unfold Notification_from_record, Notification.json.
  cbn [map fst forallb init_params existsb String.eqb Ascii.eqb Bool.eqb andb orb jget].
  unfold Notification_init, make_actions. rewrite pair_up_flatten.
  eexists. split; reflexivity.
Qed.

Lemma omap_ext_In {A B} (f g : A -> option B) (l : list A) :
  (forall x, In x l -> f x = g x) -> omap f l = omap g l.
Proof.
  induction l as [|x l IH]; intros H; simpl; [reflexivity|].
  rewrite (H x) by (left; reflexivity).
  change (list_omap A B f l) with (omap f l).
  change (list_omap A B g l) with (omap g l).
  rewrite IH; [reflexivity|].
  intros y Hy. apply H. right. exact Hy.
Qed.

(** Loading saved records one after the other: every one is accepted and
    goes to the end of the collection. *)
Lemma load_each_records ns : forall s,
  Forall (fun n => exists k, Notification_key n = Some k /\
                             ~ In k (PyDict.keys (_notifications s))) ns ->
  NoDup (map Notification_key ns) ->
  (forall k r, In (k, r) (_notifications s) -> (r < length (objects s))%nat) ->
  exists s', load_each env (map Notification.json ns) s = (Returned tt, s') /\
    _id s' = _id s /\ cache_file s' = cache_file s /\ emitted s' = emitted s /\
    pending s' = pending s /\ _popups s' = _popups s /\
    map persisted (notification_objects s') =
      (map persisted (notification_objects s) ++ map persisted ns)%list.
Proof.
  induction ns as [|n ns IH]; intros s Hkeys Hnd Hvalid.
  - simpl. exists s. rewrite app_nil_r. auto 10.
  - cbn [map load_each].
    destruct (Notification_from_record_json n) as (m & Hm & Hpm). rewrite Hm.
    assert (Hidm : Notification._id m = Notification._id n)
      by (unfold persisted in Hpm; congruence).
    apply Forall_cons in Hkeys as [(k & Hk & Hfresh) Hkeys].
    apply NoDup_cons in Hnd as [Hnin Hnd].
    unfold Notification_key in Hk.
    set (r := length (objects s)).
    set (m' := Notification.connect_dismissed on_dismissed_dismiss_popup
                 (Notification.connect_closed on_closed_close_notification m)).
    assert (Hadd : add_notification r (snd (new_object m s)) =
                   (Returned tt,
                    set_notifications (_notifications s ++ [(k, r)])%list
                      (set_objects (objects s ++ [m'])%list s))).
    { unfold add_notification, new_object. simpl.
      rewrite lookup_app_r by (subst r; lia). subst r. rewrite Nat.sub_diag. simpl.
      rewrite Hidm, Hk, (PyDict_set_fresh _ _ _ Hfresh).
      replace (<[length (objects s):=m']> (objects s ++ [m])%list)
        with (objects s ++ [m'])%list; [reflexivity|].
      replace (length (objects s)) with (length (objects s) + 0)%nat at 1 by lia.
      rewrite insert_app_r. reflexivity. }
    unfold new_object in *. simpl in Hadd. fold r. rewrite Hadd.
    set (s1 := set_notifications _ _).
    destruct (IH s1) as (s' & Hload & Hid & Hfile & Hem & Hpe & Hpop & Hobjs).
    + rewrite Forall_forall in *. intros n2 Hn2.
      destruct (Hkeys n2 Hn2) as (k2 & Hk2 & Hfresh2). exists k2. split; [exact Hk2|].
      subst s1. simpl. unfold PyDict.keys. rewrite map_app. simpl.
      intros Hin. apply in_app_or in Hin as [Hin|[Heq|[]]]; [exact (Hfresh2 Hin)|].
      subst k2. apply Hnin. apply list_elem_of_In.
      unfold Notification_key at 1. rewrite Hk, <- Hk2.
      apply in_map. apply list_elem_of_In. exact Hn2.
    + exact Hnd.
    + subst s1. simpl. intros k0 r0 Hin. rewrite length_app. simpl.
      apply in_app_or in Hin as [Hin|[[= _ <-]|[]]]; [|subst r; lia].
      specialize (Hvalid k0 r0 Hin). lia.
    + exists s'. split; [exact Hload|]. rewrite Hid, Hfile, Hem, Hpe, Hpop, Hobjs.
      repeat split; try reflexivity.
      subst s1. unfold notification_objects, notifications, PyDict.values. simpl.
      rewrite map_app, omap_app. simpl.
      rewrite lookup_app_r by (subst r; lia). subst r. rewrite Nat.sub_diag. simpl.
      rewrite map_app. simpl. rewrite <- app_assoc. simpl.
      f_equal; [|f_equal; subst m'; unfold persisted in *; simpl; exact Hpm].
      f_equal. apply omap_ext_In. intros r0 Hin.
      apply in_map_iff in Hin as ([k0 r1] & Heq & Hin). simpl in Heq. subst r1.
      specialize (Hvalid k0 r0 Hin). apply lookup_app_l. exact Hvalid.
Qed.

(** C5.  Take any state of the service whose collection holds one
    notification per id, as a dict keyed by the ids does.  Building a
    service on the file that [__sync] writes for it gives back the counter
    [_id] and, in the same order, the notifications with the fields that
    are saved: id, app_name, icon, summary, body, timeout, time, urgency
    and the (id, label) actions.  The loader finds nothing wrong: it logs
    nothing and leaves the file. *)
Theorem load_after_sync_roundtrip s dnd0 popup_timeout0 max_popups_count0 imgs :
  Forall (fun n => Notification_key n <> None) (notification_objects s) ->
  NoDup (map Notification_key (notification_objects s)) ->
  let s' := NotificationService_init env dnd0 popup_timeout0 max_popups_count0
              (cache_file (sync s)) imgs in
  _id s' = _id s /\
  map persisted (notification_objects s') = map persisted (notification_objects s) /\
  cache_file s' = cache_file (sync s) /\
  emitted s' = [] /\ pending s' = [] /\ popups s' = [].
Proof.
  intros Hhash Hnd. unfold NotificationService_init.
  match goal with |- context [load_notifications env ?x] =>
    remember x as s0 eqn:Hs0 end.
  assert (Hfile0 : cache_file s0 = Some (sync_data (_id s) (notification_objects s)))
    by (subst s0; reflexivity).
  assert (Hn0 : _notifications s0 = []) by (subst s0; reflexivity).
  assert (Ho0 : objects s0 = []) by (subst s0; reflexivity).
  assert (He0 : emitted s0 = []) by (subst s0; reflexivity).
  assert (Hp0 : pending s0 = []) by (subst s0; reflexivity).
  assert (Hq0 : _popups s0 = []) by (subst s0; reflexivity).
  clear Hs0.
  destruct (load_each_records (notification_objects s) s0) as
    (s1 & Hload & Hid & Hfile & Hem & Hpe & Hpop & Hobjs).
  - rewrite Hn0. eapply Forall_impl; [exact Hhash|]. simpl. intros n Hn.
    destruct (Notification_key n) as [k|]; [|contradiction]. exists k. auto.
  - exact Hnd.
  - rewrite Hn0. intros k r [].
  - assert (Htry : try_load env s0 = (Returned tt, set_id (_id s) s1)).
    { unfold try_load. rewrite Hfile0. unfold sync_data. simpl. rewrite Hload.
      reflexivity. }
    assert (Hno0 : notification_objects s0 = [])
      by (unfold notification_objects, notifications; rewrite Hn0; reflexivity).
    rewrite Hno0 in Hobjs. simpl in Hobjs.
    unfold load_notifications. rewrite Htry. cbv zeta.
    split; [reflexivity|]. split; [exact Hobjs|].
    split; [exact (eq_trans Hfile Hfile0)|].
    split; [exact (eq_trans Hem He0)|]. split; [exact (eq_trans Hpe Hp0)|].
    unfold popups. simpl. rewrite Hpop, Hq0. reflexivity.
Qed.

(** ** The collection is keyed by the ids *)

Lemma notification_objects_keys s :
  notifications_inv s ->
  map Notification_key (notification_objects s) =
  map Some (PyDict.keys (_notifications s)).
Proof.
  intros [_ Hok]. unfold notification_objects, notifications, PyDict.values, PyDict.keys.
  induction (_notifications s) as [|[k r] d IH]; [reflexivity|].
  simpl. destruct (Hok k r (or_introl eq_refl)) as (n & Hn & Hk & _).
  rewrite Hn. simpl. unfold Notification_key at 1. rewrite Hk. f_equal.
  apply IH. intros k0 r0 Hin. apply Hok. right. exact Hin.
Qed.

Lemma collection_keys s :
  notifications_inv s ->
  Forall (fun n => Notification_key n <> None) (notification_objects s) /\
  NoDup (map Notification_key (notification_objects s)).
Proof.
  intros Hinv. pose proof (notification_objects_keys s Hinv) as Hkeys. split.
  - apply Forall_forall. intros n Hn.
    assert (Hin : In (Notification_key n) (map Notification_key (notification_objects s))).
    { apply in_map. apply list_elem_of_In. exact Hn. }
    rewrite Hkeys in Hin. apply in_map_iff in Hin as (k & <- & _). discriminate.
  - rewrite Hkeys. apply NoDup_fmap_2; [|apply Hinv].
    intros x y [= ->]. reflexivity.
Qed.

(** ** Admission of a new popup *)

Lemma filter_length_lt {A} (f : A -> bool) (l : list A) x :
  In x l -> f x = false -> (length (List.filter f l) < length l)%nat.
Proof.
  induction l as [|y l IH]; simpl; [tauto|].
  intros [->|Hin] Hf.
  - rewrite Hf. pose proof (List.filter_length_le f l). lia.
  - specialize (IH Hin Hf). destruct (f y); simpl; lia.
Qed.

Lemma filter_ext_length {A} (f g : A -> bool) (l : list A) :
  (forall x, In x l -> f x = true -> g x = true) ->
  (length (List.filter f l) <= length (List.filter g l))%nat.
Proof.
  induction l as [|y l IH]; simpl; intros H; [lia|].
  assert (IH' : (length (List.filter f l) <= length (List.filter g l))%nat)
    by (apply IH; intros x Hx; apply H; right; exact Hx).
  destruct (f y) eqn:Hf.
  - rewrite (H y (or_introl eq_refl) Hf). simpl. lia.
  - destruct (g y); simpl; lia.
Qed.

Lemma PyDict_set_values_filter (f : ref -> bool) k (r : ref) (d : PyDict.t ref) :
  (length (List.filter f (PyDict.values (PyDict.set k r d))) <=
   S (length (List.filter f (PyDict.values d))))%nat.
Proof.
  unfold PyDict.values. induction d as [|[k' v'] d IH]; simpl.
  - destruct (f r); simpl; lia.
  - destruct (decide (k' = k)); simpl.
    + destruct (f r), (f v'); simpl; lia.
    + destruct (f v'); simpl; lia.
Qed.

Lemma PyDict_values_length {V} (d : PyDict.t V) : length (PyDict.values d) = length d.
Proof. unfold PyDict.values. apply length_map. Qed.

Lemma shown_popups_le s : (length (shown_popups s) <= length (popups s))%nat.
Proof. unfold shown_popups. apply List.filter_length_le. Qed.

Lemma shown_popups_same s s' :
  _popups s' = _popups s -> (forall r, popup r s' = true -> popup r s = true) ->
  (length (shown_popups s') <= length (shown_popups s))%nat.
Proof.
  intros Hp Hf. unfold shown_popups, popups. rewrite Hp.
  apply filter_ext_length. intros r _. apply Hf.
Qed.

(** The eviction leaves room: afterwards fewer notifications of the list
    are popups than the limit allows. *)
Lemma make_room_bound s u s1 :
  0 < max_popups_count s ->
  Z.of_nat (length (popups s)) <= max_popups_count s ->
  make_room s = (Returned u, s1) ->
  Z.of_nat (length (shown_popups s1)) < max_popups_count s /\ _popups s1 = _popups s.
Proof.
  intros Hpos Hlen. unfold make_room.
  destruct (Z.of_nat (length (popups s)) >=? max_popups_count s) eqn:Hge.
  - destruct (max_popups_count s =? 0) eqn:H0; [lia|]. simpl.
    destruct (last (popups s)) as [l|] eqn:Hlast; [|discriminate].
    intros [= _ <-].
    split; [|apply Notification_dismiss_dicts].
    assert (Hin : In l (popups (Notification_dismiss l s))).
    { unfold popups. rewrite (proj2 (Notification_dismiss_dicts l s)).
      apply list_elem_of_In. eapply last_Some_elem_of. exact Hlast. }
    pose proof (filter_length_lt (fun r => popup r (Notification_dismiss l s)) _ l Hin
                  (Notification_dismiss_popup_false l s)) as Hlt.
    unfold shown_popups.
    assert (Hsame : length (popups (Notification_dismiss l s)) = length (popups s))
      by (unfold popups; rewrite (proj2 (Notification_dismiss_dicts l s)); reflexivity).
    lia.
  - intros [= _ <-]. split; [|reflexivity].
    pose proof (shown_popups_le s). lia.
Qed.

Lemma init_tail_bound r n s :
  0 < max_popups_count s ->
  Z.of_nat (length (popups s)) <= max_popups_count s ->
  let s' := snd (init_tail r n s) in
  Z.of_nat (length (shown_popups s')) <= max_popups_count s /\
  Z.of_nat (length (popups s')) <= max_popups_count s + 1.
Proof.
  intros Hpos Hlen. cbv zeta. unfold init_tail.
  destruct (make_room s) as [[u|e] s1] eqn:Hroom.
  2:{ cbn [snd]. unfold make_room in Hroom.
      repeat case_match; simplify_eq. pose proof (shown_popups_le s1). lia. }
  destruct (make_room_bound s u s1 Hpos Hlen Hroom) as [Hshown Hpop1].
  assert (Hlen1 : length (popups s1) = length (popups s))
    by (unfold popups; rewrite Hpop1; reflexivity).
  assert (Hshow : forall s2, snd (show_popup r n s1) = s2 ->
            Z.of_nat (length (shown_popups s2)) <= max_popups_count s /\
            Z.of_nat (length (popups s2)) <= max_popups_count s + 1).
  { intros s2 <-. unfold show_popup.
    destruct (Notification._popup n); [|cbn [snd]; lia].
    destruct (hash_key (Notification._id n)) as [k|]; [|cbn [snd]; lia].
    cbn [snd]. split.
    - unfold shown_popups, popups in *. simpl.
      pose proof (PyDict_set_values_filter
                    (fun r0 => popup r0 s1) k r (_popups s1)) as Hset.
      match goal with |- Z.of_nat (length (List.filter ?f _)) <= _ =>
        replace f with (fun r0 => popup r0 s1) by reflexivity end.
      lia.
    - unfold popups in Hlen |- *. simpl.
      rewrite PyDict_values_length in Hlen |- *. rewrite Hpop1.
      pose proof (PyDict_set_length k r (_popups s)). lia. }
  destruct (show_popup r n s1) as [[u'|e] s2]; cbn [snd] in *;
    [|apply Hshow; reflexivity].
  destruct (Hshow s2 eq_refl) as [Hs2 Hl2].
  assert (Hadd : forall s3, snd (add_notification r s2) = s3 ->
            (length (shown_popups s3) <= length (shown_popups s2))%nat /\
            length (popups s3) = length (popups s2)).
  { intros s3 <-. unfold add_notification.
    destruct (objects s2 !! r) as [n2|] eqn:Hn2; [|cbn [snd]; lia].
    assert (Hflag : forall r0 s3,
              objects s3 = <[r := Notification.connect_dismissed on_dismissed_dismiss_popup
                                     (Notification.connect_closed
                                        on_closed_close_notification n2)]> (objects s2) ->
              popup r0 s3 = popup r0 s2).
    { intros r0 s3 Ho. unfold popup. rewrite Ho.
      destruct (Nat.eq_dec r r0) as [<-|Hne].
      - rewrite list_lookup_insert_eq by (eapply lookup_lt_Some; eauto).
        rewrite Hn2. reflexivity.
      - rewrite list_lookup_insert_ne by exact Hne. reflexivity. }
    destruct (hash_key (Notification._id n2)); cbn [snd]; split; try reflexivity.
    all: apply shown_popups_same; [reflexivity|].
    all: intros r0; erewrite Hflag by reflexivity; auto. }
  destruct (add_notification r s2) as [[u''|e] s3]; cbn [snd] in *.
  - destruct (Hadd s3 eq_refl) as [Hs3 Hl3].
    unfold shown_popups, popups in *. simpl.
    change (fun r0 => popup r0 (emit notify_notifications (emit (notified r) (sync s3))))
      with (fun r0 => popup r0 s3).
    split; lia.
  - destruct (Hadd s3 eq_refl) as [Hs3 Hl3]. split; lia.
Qed.

Lemma init_notification_bound w id a s :
  0 < max_popups_count s ->
  Z.of_nat (length (popups s)) <= max_popups_count s ->
  let s' := snd (init_notification env w id a s) in
  Z.of_nat (length (shown_popups s')) <= max_popups_count s /\
  Z.of_nat (length (popups s')) <= max_popups_count s + 1.
Proof.
  intros Hpos Hlen. cbv zeta.
  pose proof (shown_popups_le s) as Hle.
  destruct (image_saved_same id a s) as (Ho & _ & Hpo & _ & _ & _ & _ & _ & _ & Hmax).
  assert (Himg : Z.of_nat (length (shown_popups (image_saved env id a s)))
                 <= max_popups_count s /\
                 Z.of_nat (length (popups (image_saved env id a s)))
                 <= max_popups_count s + 1).
  { pose proof (shown_popups_le (image_saved env id a s)).
    unfold popups in *. rewrite Hpo in *. lia. }
  destruct (init_notification_split w id a s) as [[e [H|H]]|(acts & _ & _ & H)];
    rewrite H; cbn [snd]; [lia|exact Himg|].
  match goal with |- context [init_tail ?r ?n ?s2] =>
    pose proof (init_tail_bound r n s2) as Htail end.
  cbn [max_popups_count set_objects popups _popups] in Htail.
  rewrite Hmax in Htail. apply Htail; [exact Hpos|].
  unfold popups in *. cbn [_popups set_objects]. rewrite Hpo. exact Hlen.
Qed.

(** The replacing branch of [Notify] shows and hides nothing. *)
Lemma replace_keeps_popups old h s :
  let s1 := connect_closed old h (Notification_close old s) in
  _popups s1 = _popups s /\ forall r, popup r s1 = popup r s.
Proof.
  cbv zeta. unfold connect_closed, Notification_close, popup.
  destruct (objects s !! old) as [n|] eqn:Hn; simpl; rewrite ?Hn; simpl;
    (split; [reflexivity|]); [|reflexivity].
  intros r. destruct (Nat.eq_dec old r) as [<-|Hne].
  - rewrite list_lookup_insert_eq by (eapply lookup_lt_Some; eauto).
    rewrite Hn. reflexivity.
  - rewrite list_lookup_insert_ne by exact Hne. reflexivity.
Qed.

(** C2 (as amended).  In a state whose popup list holds at most
    [max_popups_count] entries, that option being positive, right after any
    [Notify] call, whatever the call does (build, replace, or raise), at
    most [max_popups_count] notifications of the list are popups still,
    and the list holds at most one entry more than [max_popups_count]: the
    popup that the call has dismissed to make room stays listed until the
    loop delivers its "dismissed" signal.  [Notify] leaves the option as it
    is. *)
Theorem Notify_keeps_popups_within_limit w a s :
  0 < max_popups_count s ->
  Z.of_nat (length (popups s)) <= max_popups_count s ->
  let s' := snd (Notify env w a s) in
  Z.of_nat (length (shown_popups s')) <= max_popups_count s' /\
  Z.of_nat (length (popups s')) <= max_popups_count s' + 1 /\
  max_popups_count s' = max_popups_count s.
Proof.
  intros Hpos Hlen. cbv zeta.
  destruct (Notify_same_options w a s) as (_ & _ & Hmax). rewrite Hmax.
  split; [|split; [|reflexivity]].
  all: pose proof (shown_popups_le s) as Hle.
  all: unfold Notify, reply_u.
  all: destruct (replaces_id a =? 0).
  - destruct (py_add_one env (_id s)) as [idv|e]; [|cbn [snd]; lia].
    pose proof (init_notification_bound w idv a (set_id idv s) Hpos Hlen) as [Hb _].
    destruct (init_notification env w idv a (set_id idv s)) as [[u|e] s1];
      cbn [snd] in *; [destruct (pack_u env idv)|]; cbn [snd]; exact Hb.
  - destruct (get_notification (replaces_id a) s) as [old|].
    + destruct (replace_keeps_popups old (on_closed_init a (JInt (replaces_id a))) s)
        as [Hp Hf].
      pose proof (shown_popups_same s _ Hp (fun r H => eq_trans (eq_sym (Hf r)) H)).
      destruct (pack_u env (JInt (replaces_id a))); cbn [snd]; lia.
    + pose proof (init_notification_bound w (JInt (replaces_id a)) a s Hpos Hlen)
        as [Hb _].
      destruct (init_notification env w (JInt (replaces_id a)) a s) as [[u|e] s1];
        cbn [snd] in *; [destruct (pack_u env (JInt (replaces_id a)))|]; cbn [snd];
        exact Hb.
  - destruct (py_add_one env (_id s)) as [idv|e]; [|cbn [snd]; lia].
    pose proof (init_notification_bound w idv a (set_id idv s) Hpos Hlen) as [_ Hb].
    destruct (init_notification env w idv a (set_id idv s)) as [[u|e] s1];
      cbn [snd] in *; [destruct (pack_u env idv)|]; cbn [snd]; exact Hb.
  - destruct (get_notification (replaces_id a) s) as [old|].
    + destruct (replace_keeps_popups old (on_closed_init a (JInt (replaces_id a))) s)
        as [Hp Hf].
      destruct (pack_u env (JInt (replaces_id a))); cbn [snd];
        unfold popups in *; rewrite Hp; lia.
    + pose proof (init_notification_bound w (JInt (replaces_id a)) a s Hpos Hlen)
        as [_ Hb].
      destruct (init_notification env w (JInt (replaces_id a)) a s) as [[u|e] s1];
        cbn [snd] in *; [destruct (pack_u env (JInt (replaces_id a)))|]; cbn [snd];
        exact Hb.
Qed.

(** ** Signals are only added *)

Lemma grows_refl s : grows s s.
Proof. split; exists []; rewrite app_nil_r; reflexivity. Qed.

Lemma grows_trans s1 s2 s3 : grows s1 s2 -> grows s2 s3 -> grows s1 s3.
Proof.
  intros [[e1 He1] [p1 Hp1]] [[e2 He2] [p2 Hp2]]. split.
  - exists (e1 ++ e2)%list. rewrite He2, He1, app_assoc. reflexivity.
  - exists (p1 ++ p2)%list. rewrite Hp2, Hp1, app_assoc. reflexivity.
Qed.

Lemma grows_same s s' :
  emitted s' = emitted s -> pending s' = pending s -> grows s s'.
Proof. intros He Hp. split; exists []; rewrite app_nil_r; assumption. Qed.

Lemma grows_emit e s : grows s (emit e s).
Proof. split; exists [e]; reflexivity. Qed.

Lemma grows_emit_signal e s : grows s (emit_signal e s).
Proof. split; [exists [e]|exists []; rewrite app_nil_r]; reflexivity. Qed.

Lemma Notification_dismiss_grows r s : grows s (Notification_dismiss r s).
Proof.
  unfold Notification_dismiss. repeat case_match; try apply grows_refl.
  eapply grows_trans; [|apply grows_emit].
  eapply grows_trans; [|apply grows_emit]. apply grows_same; reflexivity.
Qed.

Lemma dismiss_popup_grows r s : grows s (dismiss_popup r s).
Proof.
  unfold dismiss_popup. repeat case_match; try apply grows_refl.
  eapply grows_trans; [|apply grows_emit]. apply grows_same; reflexivity.
Qed.

Lemma close_notification_grows r s : grows s (close_notification env r s).
Proof.
  unfold close_notification. repeat case_match; try apply grows_refl.
  all: repeat first [ (eapply grows_trans; [|apply grows_emit])
                    | (eapply grows_trans; [|apply grows_emit_signal]) ].
  all: unfold sync.
  all: try (eapply grows_trans; [|apply grows_same; reflexivity];
            eapply grows_trans; [|apply Notification_dismiss_grows]).
  all: apply grows_same; reflexivity.
Qed.

Lemma make_room_grows s : grows s (snd (make_room s)).
Proof.
  unfold make_room. repeat case_match; simpl;
    try apply grows_refl; apply Notification_dismiss_grows.
Qed.

Lemma show_popup_grows r n s : grows s (snd (show_popup r n s)).
Proof.
  unfold show_popup. repeat case_match; simpl; try apply grows_refl.
  eapply grows_trans; [|apply grows_emit].
  eapply grows_trans; [|apply grows_emit]. apply grows_same; reflexivity.
Qed.

Lemma add_notification_grows r s : grows s (snd (add_notification r s)).
Proof. unfold add_notification. repeat case_match; apply grows_same; reflexivity. Qed.

Lemma init_tail_grows r n s : grows s (snd (init_tail r n s)).
Proof.
  unfold init_tail.
  pose proof (make_room_grows s) as H1.
  destruct (make_room s) as [[u|e] s1]; simpl in *; [|exact H1].
  pose proof (show_popup_grows r n s1) as H2.
  destruct (show_popup r n s1) as [[u'|e] s2]; simpl in *;
    [|eapply grows_trans; eauto].
  pose proof (add_notification_grows r s2) as H3.
  destruct (add_notification r s2) as [[u''|e] s3]; simpl in *.
  - eapply grows_trans; [|apply grows_emit].
    eapply grows_trans; [|apply grows_emit].
    eapply grows_trans; [|apply (grows_same s3 (sync s3)); reflexivity].
    eapply grows_trans; [|exact H3]. eapply grows_trans; eauto.
  - eapply grows_trans; [|exact H3]. eapply grows_trans; eauto.
Qed.

Lemma init_notification_grows w id a s :
  grows s (snd (init_notification env w id a s)).
Proof.
  destruct (image_saved_same id a s) as (_ & _ & _ & Hem & Hpe & _ & _).
  destruct (init_notification_split w id a s) as [[e [H|H]]|(acts & _ & _ & H)];
    rewrite H; cbn [snd]; [apply grows_refl|apply grows_same; assumption|].
  eapply grows_trans; [|apply init_tail_grows].
  apply grows_same; assumption.
Qed.

Lemma run_closed_handler_grows w r h s : grows s (run_closed_handler env w r h s).
Proof.
  destruct h; simpl; [apply close_notification_grows|apply init_notification_grows].
Qed.

(** A delivery takes the head of the queue; what its handlers emit goes
    to the end. *)
Lemma deliver_queue w s e q :
  pending s = e :: q ->
  (exists tr, emitted (deliver env w s) = emitted s ++ tr)%list /\
  (exists tr, pending (deliver env w s) = q ++ tr)%list.
Proof.
  intros Hq.
  assert (H : grows (set_pending q s) (deliver env w s)).
  { unfold deliver. rewrite Hq. destruct e; try apply grows_refl.
    - case_match; [|apply grows_refl].
      apply fold_left_rel; auto using grows_refl, run_closed_handler_grows.
      intros; eapply grows_trans; eauto.
    - case_match; [|apply grows_refl].
      apply fold_left_rel; auto using grows_refl.
      + intros; eapply grows_trans; eauto.
      + intros s0 []; simpl. apply dismiss_popup_grows. }
  exact H.
Qed.

Lemma deliver_each_queue ws : forall s,
  (length ws <= length (pending s))%nat ->
  (exists tr, emitted (deliver_each env ws s) = emitted s ++ tr)%list /\
  (exists tr, pending (deliver_each env ws s) = drop (length ws) (pending s) ++ tr)%list.
Proof.
  induction ws as [|w ws IH]; intros s Hlen.
  - simpl. split; exists []; rewrite app_nil_r; reflexivity.
  - cbn [deliver_each fold_left length] in *.
    destruct (pending s) as [|e q] eqn:Hq; [simpl in Hlen; lia|].
    destruct (deliver_queue w s e q Hq) as [[te Hte] [tp Htp]].
    destruct (IH (deliver env w s)) as [[te' Hte'] [tp' Htp']].
    { rewrite Htp, length_app. simpl in Hlen. lia. }
    unfold deliver_each in *. split.
    + exists (te ++ te')%list. rewrite Hte', Hte, app_assoc. reflexivity.
    + exists (drop (length ws - length q) tp ++ tp')%list.
      rewrite Htp', Htp, drop_app. simpl. rewrite app_assoc. reflexivity.
Qed.

(** ** Replacing a notification *)

Lemma pair_up_even n : forall l,
  length l = (2 * n)%nat -> exists acts, pair_up env l = Returned acts.
Proof.
  induction n as [|n IH]; intros l Hl.
  - destruct l; [|discriminate]. simpl. eauto.
  - destruct l as [|a [|b rest]]; simpl in Hl; try lia.
    destruct (IH rest) as [acts Hacts]; [lia|].
    simpl. rewrite Hacts. eauto.
Qed.

Lemma init_tail_succeeds r n s k :
  objects s !! r = Some n -> hash_key (Notification._id n) = Some k ->
  0 <= max_popups_count s ->
  exists s', init_tail r n s = (Returned tt, s').
Proof.
  intros Hn Hk Hmax. unfold init_tail.
  assert (Hroom : exists s1, make_room s = (Returned tt, s1)).
  { unfold make_room.
    destruct (Z.of_nat (length (popups s)) >=? max_popups_count s) eqn:Hge; [|eauto].
    destruct (max_popups_count s =? 0) eqn:H0; simpl; [eauto|].
    destruct (last (popups s)) as [l|] eqn:Hl; [eauto|].
    apply last_None in Hl. rewrite Hl in Hge.
    apply Z.geb_le in Hge. apply Z.eqb_neq in H0. simpl in Hge. lia. }
  destruct Hroom as [s1 Hroom].
  pose proof (make_room_evolves (fun _ => True) s r n I Hn) as (n1 & Hn1 & Hp1 & _).
  rewrite Hroom in *. cbn [snd] in Hn1.
  assert (Hid1 : Notification._id n1 = Notification._id n)
    by (unfold persisted in Hp1; congruence).
  unfold show_popup, add_notification.
  destruct (Notification._popup n); rewrite ?Hk; cbn [objects emit set_popups];
    rewrite Hn1, Hid1, Hk; eauto.
Qed.

Lemma init_notification_succeeds w id k a s :
  hash_key id = Some k ->
  Nat.Even (length (actions a)) ->
  image_data (hints a) = None \/ savev_ok w = true ->
  0 <= max_popups_count s ->
  exists s', init_notification env w id a s = (Returned tt, s').
Proof.
  intros Hk [m Hm] Himg Hmax.
  destruct (pair_up_even m (map JStr (actions a))) as [acts Hacts];
    [rewrite length_map; exact Hm|].
  assert (Htail : forall s1, max_popups_count s1 = max_popups_count s ->
            forall n, Notification._id n = id ->
            exists s', init_tail (length (objects s1)) n
                         (set_objects (objects s1 ++ [n]) s1) = (Returned tt, s')).
  { intros s1 Hs1 n Hid. eapply init_tail_succeeds.
    - cbn [objects set_objects]. rewrite lookup_app_r by lia.
      rewrite Nat.sub_diag. reflexivity.
    - rewrite Hid. exact Hk.
    - cbn [max_popups_count set_objects]. rewrite Hs1. exact Hmax. }
  unfold init_notification, save_pixbuf, new_object, Notification_init, make_actions.
  cbv zeta. rewrite Hacts.
  destruct (image_data (hints a)) as [px|].
  - destruct Himg as [Himg|Himg]; [discriminate|]. rewrite Himg.
    apply Htail; reflexivity.
  - apply Htail; reflexivity.
Qed.

Lemma init_tail_notifications r n s :
  _notifications (snd (init_tail r n s)) = _notifications s \/
  exists k, _notifications (snd (init_tail r n s)) = PyDict.set k r (_notifications s).
Proof.
  unfold init_tail.
  pose proof (make_room_dicts s) as [H1 _].
  destruct (make_room s) as [[u|e] s1]; cbn [snd] in *; [|left; exact H1].
  assert (H2 : _notifications (snd (show_popup r n s1)) = _notifications s1)
    by (unfold show_popup; repeat case_match; reflexivity).
  destruct (show_popup r n s1) as [[u'|e] s2]; cbn [snd] in *;
    [|left; congruence].
  assert (H3 : _notifications (snd (add_notification r s2)) = _notifications s2 \/
               exists k, _notifications (snd (add_notification r s2)) =
                           PyDict.set k r (_notifications s2)).
  { unfold add_notification. repeat case_match; cbn [snd]; simpl; eauto. }
  destruct (add_notification r s2) as [[u''|e] s3]; cbn [snd] in *.
  - simpl. destruct H3 as [H3|[k H3]]; [left|right; exists k]; congruence.
  - destruct H3 as [H3|[k H3]]; [left|right; exists k]; congruence.
Qed.

Lemma init_notification_notifications w id a s :
  let s' := snd (init_notification env w id a s) in
  _notifications s' = _notifications s \/
  exists k, _notifications s' = PyDict.set k (length (objects s)) (_notifications s).
Proof.
  cbv zeta.
  destruct (image_saved_same id a s) as (_ & Hno & _).
  destruct (init_notification_split w id a s) as [[e [H|H]]|(acts & _ & _ & H)];
    rewrite H; cbn [snd]; [left; reflexivity|left; exact Hno|].
  match goal with |- context [init_tail ?r ?n ?s2] =>
    destruct (init_tail_notifications r n s2) as [Ht|[k Ht]] end;
    cbn [_notifications set_objects] in Ht; rewrite Hno in Ht; eauto.
Qed.

Lemma PyDict_values_In {V} (v : V) (d : PyDict.t V) :
  In v (PyDict.values d) -> exists k, In (k, v) d.
Proof.
  unfold PyDict.values. intros H. apply in_map_iff in H as ([k v'] & Heq & Hin).
  simpl in Heq. subst v'. eauto.
Qed.

Lemma PyDict_In_values {V} k (v : V) (d : PyDict.t V) :
  In (k, v) d -> In v (PyDict.values d).
Proof. intros H. unfold PyDict.values. apply (in_map snd) in H. exact H. Qed.

(** Once an object is out of the collection, no handler of "closed" puts
    it back. *)
Lemma run_closed_handler_keeps_out w r h s (old : ref) :
  (old < length (objects s))%nat /\ ~ In old (notifications s) ->
  (old < length (objects (run_closed_handler env w r h s)))%nat /\
  ~ In old (notifications (run_closed_handler env w r h s)).
Proof.
  intros [Hlt Hout]. split.
  - eapply (evolves_on_length (fun _ => True));
      [apply run_closed_handler_evolves|exact I|exact Hlt].
  - intros Hin. apply Hout. unfold notifications in *.
    apply PyDict_values_In in Hin as [k Hin]. destruct h; simpl in Hin.
    + destruct (close_notification_dicts r s) as [_ [Hd|[k0 Hd]]]; rewrite Hd in Hin.
      * eapply PyDict_In_values; eauto.
      * apply PyDict_remove_incl in Hin. eapply PyDict_In_values; eauto.
    + destruct (init_notification_notifications w id a s) as [Hd|[k0 Hd]];
        cbv zeta in Hd; rewrite Hd in Hin.
      * eapply PyDict_In_values; eauto.
      * apply PyDict_set_In in Hin as [[_ ->]|Hin]; [lia|].
        eapply PyDict_In_values; eauto.
Qed.

(** The handler that the service connects first takes the object out of
    the collection. *)
Lemma close_notification_removes r s n k :
  notifications_inv s -> objects s !! r = Some n ->
  hash_key (Notification._id n) = Some k ->
  ~ In r (notifications (close_notification env r s)).
Proof.
  intros [Hnd Hok] Hn Hk Hin.
  assert (Hkey : forall k0, In (k0, r) (_notifications s) -> k0 = k).
  { intros k0 H0. destruct (Hok k0 r H0) as (n0 & Hn0 & Hk0 & _). congruence. }
  unfold notifications, close_notification in Hin. rewrite Hn, Hk in Hin.
  unfold PyDict.pop in Hin.
  destruct (PyDict.get k (_notifications s)) as [v|] eqn:Hget.
  - assert (Hd : In r (PyDict.values (PyDict.remove k (_notifications s)))).
    { revert Hin. unfold sync, Notification_dismiss.
      repeat case_match; simpl; auto. }
    apply PyDict_values_In in Hd as [k0 Hd].
    pose proof (PyDict_In_keys _ _ _ Hd) as Hkeys.
    apply PyDict_remove_incl in Hd. apply Hkey in Hd. subst k0.
    exact (PyDict_remove_key_gone k _ Hnd Hkeys).
  - apply PyDict_values_In in Hin as [k0 Hin].
    pose proof (Hkey k0 Hin). subst k0.
    apply PyDict_get_None in Hget. apply Hget. eapply PyDict_In_keys; eauto.
Qed.

(** What the replacing branch of [Notify] does during the call. *)
Lemma Notify_replace_call w a s old n :
  replaces_id a <> 0 -> is_uint32 (replaces_id a) = true ->
  get_notification (replaces_id a) s = Some old -> objects s !! old = Some n ->
  Notify env w a s =
    (Returned (replaces_id a),
     set_objects
       (<[old := Notification.connect_closed
                   (on_closed_init a (JInt (replaces_id a))) n]> (objects s))
       (emit (closed old) s)).
Proof.
  intros Hne Hu Hget Hn. unfold Notify.
  rewrite (proj2 (Z.eqb_neq _ _) Hne), Hget.
  unfold reply_u, pack_u. rewrite Hu.
  unfold connect_closed, Notification_close. rewrite Hn. simpl. rewrite Hn.
  reflexivity.
Qed.

Lemma deliver_each_inv ws s : inv s -> inv (deliver_each env ws s).
Proof. unfold deliver_each. apply fold_left_inv. intros a b. apply deliver_inv. Qed.

(** C1 (as amended).  Let a notification with the id X that a [Notify]
    call wants replaced be in the collection of a state the daemon can be
    in, X not 0 and within the 32 bits of the wire type.  Suppose that the
    replacement can be built: the action strings of the call come in
    pairs, the image of its hints, if any, is saved when the time comes,
    and [max_popups_count] is not negative.  Then the call replies X; it
    closes the old notification, that is, it emits "closed", and connects
    the construction of the replacement to that signal; it builds and
    removes nothing itself.  Once the loop has delivered the signals that
    were waiting before the call ([ws] has one world for each), "closed"
    of the old notification is the next signal; its delivery first takes
    the old notification out of the collection and then builds the
    replacement from the arguments of the call, a new object which the
    collection then holds under X and whose "notified" signal comes after
    the "closed" of the old one. *)
Theorem Notify_replaces_after_close w w' ws a s old :
  reachable env s ->
  replaces_id a <> 0 ->
  is_uint32 (replaces_id a) = true ->
  get_notification (replaces_id a) s = Some old ->
  Nat.Even (length (actions a)) ->
  image_data (hints a) = None \/ savev_ok w' = true ->
  0 <= max_popups_count s ->
  length ws = length (pending s) ->
  let X := replaces_id a in
  let s1 := snd (Notify env w a s) in
  let s2 := deliver_each env ws s1 in
  let s3 := deliver env w' s2 in
  fst (Notify env w a s) = Returned X /\
  _notifications s1 = _notifications s /\
  length (objects s1) = length (objects s) /\
  emitted s1 = (emitted s ++ [closed old])%list /\
  pending s1 = (pending s ++ [closed old])%list /\
  (exists q, pending s2 = closed old :: q) /\
  exists s_c new n acts,
    ~ In old (notifications s_c) /\
    new = length (objects s_c) /\ (old < new)%nat /\
    init_notification env w' (JInt X) a s_c = (Returned tt, s3) /\
    get_notification X s3 = Some new /\
    objects s3 !! new = Some n /\
    make_actions env (JList (map JStr (actions a))) = Returned acts /\
    persisted n = persisted (built_notification env w' (JInt X) a s acts) /\
    exists tr,
      emitted s3 =
        (emitted s ++ [closed old] ++ tr ++ [notified new; notify_notifications])%list.
Proof.
  intros Hreach Hne Hu Hget Heven Himg Hmax Hlen. cbv zeta.
  pose proof (reachable_inv s Hreach) as Hinv.
  pose proof (PyDict_get_In _ _ _ Hget) as Hin.
  destruct (proj2 (proj1 Hinv) _ _ Hin) as (n & Hn & Hk & [hs Hhs] & _).
  assert (Hinv1 : inv (snd (Notify env w a s))) by (apply Notify_inv; exact Hinv).
  rewrite (Notify_replace_call w a s old n Hne Hu Hget Hn) in *. cbn [fst snd] in *.
  set (h := on_closed_init a (JInt (replaces_id a))) in *.
  set (s1 := set_objects _ _) in *.
  split; [reflexivity|]. split; [reflexivity|].
  split; [subst s1; cbn [objects set_objects]; apply length_insert|].
  split; [reflexivity|]. split; [reflexivity|].
  (* the signals that were waiting *)
  destruct (deliver_each_queue ws s1) as [[te Hte] [tp Htp]].
  { subst s1. cbn [pending set_objects emit]. rewrite length_app. simpl. lia. }
  assert (Htp' : pending (deliver_each env ws s1) = closed old :: tp).
  { rewrite Htp. subst s1. cbn [pending set_objects emit].
    rewrite Hlen, drop_app_length. reflexivity. }
  split; [eauto|].
  assert (Hold1 : objects s1 !! old = Some (Notification.connect_closed h n)).
  { subst s1. cbn [objects set_objects]. apply list_lookup_insert_eq.
    eapply lookup_lt_Some. exact Hn. }
  destruct (deliver_each_evolves (fun _ => True) ws s1 old _ I Hold1)
    as (n2 & Hn2 & Hp2 & _ & Hc2 & _).
  assert (Hid2 : Notification._id n2 = Notification._id n)
    by (unfold persisted in Hp2; simpl in Hp2; congruence).
  pose proof (deliver_each_inv ws s1 Hinv1) as Hinv2.
  pose proof (deliver_each_stable ws s1) as Hst2.
  set (s2 := deliver_each env ws s1) in *.
  (* the delivery of "closed" *)
  unfold deliver. rewrite Htp'. cbn [objects set_pending]. rewrite Hn2, Hc2.
  cbn [Notification.closed_handlers Notification.connect_closed].
  rewrite Hhs. cbn [app fold_left]. rewrite fold_left_app. cbn [fold_left].
  cbn [run_closed_handler]. fold h.
  set (s2' := close_notification env old (set_pending tp s2)).
  set (s_c := fold_left _ hs s2').
  assert (Hinv2' : inv (set_pending tp s2)).
  { destruct (inv_same_objects s2 (set_pending tp s2) eq_refl eq_refl eq_refl).
    destruct Hinv2. split; auto. }
  assert (Hout : (old < length (objects s2'))%nat /\ ~ In old (notifications s2')).
  { split.
    - eapply (evolves_on_length (fun _ => True));
        [apply close_notification_evolves|exact I|].
      cbn [objects set_pending]. eapply lookup_lt_Some. exact Hn2.
    - eapply close_notification_removes; [apply Hinv2'|exact Hn2|].
      rewrite Hid2. exact Hk. }
  assert (Houtc : (old < length (objects s_c))%nat /\ ~ In old (notifications s_c)).
  { unfold s_c.
    apply (fold_left_inv
             (fun st => (old < length (objects st))%nat /\ ~ In old (notifications st)));
      [|exact Hout].
    intros st h0. apply run_closed_handler_keeps_out. }
  assert (Hstc : stable s s_c).
  { eapply stable_trans; [apply (stable_same s s1); reflexivity|].
    eapply stable_trans; [exact Hst2|].
    eapply stable_trans; [apply (stable_same s2 (set_pending tp s2)); reflexivity|].
    eapply stable_trans; [apply close_notification_stable|].
    unfold s_c.
    apply (fold_left_rel stable); auto using stable_refl, run_closed_handler_stable.
    intros; eapply stable_trans; eauto. }
  assert (Hgrc : grows (set_pending tp s2) s_c).
  { eapply grows_trans; [apply close_notification_grows|].
    unfold s_c.
    apply (fold_left_rel grows); auto using grows_refl, run_closed_handler_grows.
    intros; eapply grows_trans; eauto. }
  destruct Hstc as (_ & Hdnd & Hpt & Hmx).
  destruct (init_notification_succeeds w' (JInt (replaces_id a)) (KInt (replaces_id a))
              a s_c eq_refl Heven Himg) as [s3 Hinit]; [rewrite Hmx; exact Hmax|].
  assert (Hs3 : run_closed_handler env w' old h s_c = s3)
    by (unfold h; cbn [run_closed_handler]; rewrite Hinit; reflexivity).
  rewrite Hs3.
  destruct (init_notification_returned _ _ _ _ _ _ Hinit)
    as (k & acts & n' & Hk' & Hacts & Hn' & Hp' & _ & _ & _ & _ & Hnot & _ & _ & _ &
        tr & Htr & _).
  cbv zeta in *. injection Hk' as <-.
  exists s_c, (length (objects s_c)), n', acts.
  split; [apply Houtc|]. split; [reflexivity|]. split; [apply Houtc|].
  split; [exact Hinit|].
  split; [unfold get_notification; rewrite Hnot; apply PyDict_set_get|].
  split; [exact Hn'|]. split; [exact Hacts|].
  split.
  { rewrite Hp'. unfold persisted, built_notification. simpl. rewrite Hpt.
    reflexivity. }
  destruct Hgrc as [[tc Htc] _]. cbn [emitted set_pending] in Htc.
  exists (te ++ tc ++ tr)%list. rewrite Htr, Htc, Hte. subst s1.
  cbn [emitted set_objects emit]. rewrite <- !app_assoc. reflexivity.
Qed.

(** ** Runs *)

Lemma Notify_all_reachable calls : forall s,
  reachable env s -> reachable env (snd (Notify_all env calls s)).
Proof.
  induction calls as [|[w a] calls IH]; intros s H; simpl; [exact H|].
  pose proof (reachable_step env w (do_Notify a) s H) as H1. simpl in H1.
  destruct (Notify env w a s) as [[id|e] s1]; simpl in *.
  - specialize (IH s1 H1). destruct (Notify_all env calls s1). exact IH.
  - apply IH. exact H1.
Qed.

Lemma deliver_each_reachable ws s :
  reachable env s -> reachable env (deliver_each env ws s).
Proof.
  unfold deliver_each. apply fold_left_inv.
  intros a w Ha. exact (reachable_step env w do_deliver a Ha).
Qed.

End Properties.

(** ** The statements at concrete inputs *)

Lemma sample_state_reachable dnd0 max a :
  reachable sample_platform
    (snd (Notify sample_platform sample_world a (fresh_service dnd0 max))).
Proof.
  apply (reachable_step sample_platform sample_world (do_Notify a)).
  apply reachable_init.
Qed.

Lemma three_popups_reachable :
  reachable sample_platform
    (settle sample_world
       (snd (Notify_all sample_platform (sample_calls 3) (fresh_service false 3)))).
Proof.
  apply deliver_each_reachable, Notify_all_reachable, reachable_init.
Qed.

(** C1, counterexample.  Notification 1 is in the collection and [Notify]
    is called with [replaces_id = 1] and a single action string, which has
    no label to go with it.  The call replies 1 and closes notification 1.
    When the loop delivers "closed", the notification leaves the
    collection and the construction of the replacement raises: once no
    signal waits any more, no notification has the id 1, no object has been
    built and no "notified" has followed "closed".  The same happens when
    the image of the hints cannot be written, and, with no popup on the
    screen, when [max_popups_count] is negative (there the object is built
    and dropped).  And a notification 0, which only a cache file can bring,
    is not replaced by a call with [replaces_id = 0]: that call builds
    notification 1 next to it and closes nothing. *)
Lemma Notify_replacing_counterexample :
  (let s := snd (Notify sample_platform sample_world (sample_call 0)
                   (fresh_service false 3)) in
   let s' := settle sample_world
               (snd (Notify sample_platform sample_world (odd_call 1) s)) in
   reachable sample_platform s /\
   get_notification 1 s = Some 0%nat /\
   fst (Notify sample_platform sample_world (odd_call 1) s) = Returned 1 /\
   pending s' = [] /\
   get_notification 1 s' = None /\ notifications s' = [] /\
   length (objects s') = length (objects s) /\
   emitted s' =
     [new_popup 0%nat; notify_popups; notified 0%nat; notify_notifications;
      closed 0%nat; dismissed 0%nat; notify_popup 0%nat; NotificationClosed 1 2;
      notify_notifications; notify_popups]) /\
  (let s := snd (Notify sample_platform sample_world (sample_call 0)
                   (fresh_service false 3)) in
   let s' := settle failing_world
               (snd (Notify sample_platform sample_world image_replace_call s)) in
   fst (Notify sample_platform sample_world image_replace_call s) = Returned 1 /\
   pending s' = [] /\
   get_notification 1 s' = None /\
   length (objects s') = length (objects s) /\
   emitted s' =
     [new_popup 0%nat; notify_popups; notified 0%nat; notify_notifications;
      closed 0%nat; dismissed 0%nat; notify_popup 0%nat; NotificationClosed 1 2;
      notify_notifications; notify_popups]) /\
  (let s := set_max_popups_count (-1)
              (snd (Notify sample_platform sample_world (sample_call 0)
                      (fresh_service true 3))) in
   let s' := settle sample_world
               (snd (Notify sample_platform sample_world (sample_call 1) s)) in
   reachable sample_platform s /\
   get_notification 1 s = Some 0%nat /\ popups s = [] /\
   fst (Notify sample_platform sample_world (sample_call 1) s) = Returned 1 /\
   pending s' = [] /\
   get_notification 1 s' = None /\
   emitted s' =
     [notified 0%nat; notify_notifications; closed 0%nat; NotificationClosed 1 2;
      notify_notifications]) /\
  (let s := NotificationService_init sample_platform false 5000 3
              (Some id_zero_file) [] in
   let s' := settle sample_world
               (snd (Notify sample_platform sample_world (sample_call 0) s)) in
   reachable sample_platform s /\
   get_notification 0 s = Some 0%nat /\
   fst (Notify sample_platform sample_world (sample_call 0) s) = Returned 1 /\
   pending s' = [] /\
   get_notification 0 s' = Some 0%nat /\
   PyDict.keys (_notifications s') = [KInt 0; KInt 1] /\
   emitted s' = [new_popup 1%nat; notify_popups; notified 1%nat; notify_notifications]).
Proof.
  split; [|split; [|split]].
  - split; [apply sample_state_reachable|].
    vm_compute. repeat split; reflexivity.
  - vm_compute. repeat split; reflexivity.
  - split.
    { apply (reachable_step sample_platform sample_world (do_set_max_popups_count (-1))).
      apply sample_state_reachable. }
    vm_compute. repeat split; reflexivity.
  - split; [apply reachable_init|].
    vm_compute. repeat split; reflexivity.
Qed.

Lemma Notify_replaces_after_close_witness :
  let s := snd (Notify sample_platform sample_world (sample_call 0)
                  (fresh_service false 3)) in
  let s1 := snd (Notify sample_platform sample_world (sample_call 1) s) in
  let s2 := deliver_each sample_platform (repeat sample_world 4) s1 in
  let s3 := deliver sample_platform sample_world s2 in
  fst (Notify sample_platform sample_world (sample_call 1) s) = Returned 1 /\
  _notifications s1 = _notifications s /\
  length (objects s1) = length (objects s) /\
  emitted s1 = (emitted s ++ [closed 0%nat])%list /\
  pending s1 = (pending s ++ [closed 0%nat])%list /\
  (exists q, pending s2 = closed 0%nat :: q) /\
  exists s_c new n acts,
    ~ In 0%nat (notifications s_c) /\
    new = length (objects s_c) /\ (0 < new)%nat /\
    init_notification sample_platform sample_world (JInt 1) (sample_call 1) s_c =
      (Returned tt, s3) /\
    get_notification 1 s3 = Some new /\
    objects s3 !! new = Some n /\
    make_actions sample_platform (JList (map JStr (actions (sample_call 1)))) =
      Returned acts /\
    persisted n =
      persisted (built_notification sample_platform sample_world (JInt 1)
                   (sample_call 1) s acts) /\
    exists tr,
      emitted s3 =
        (emitted s ++ [closed 0%nat] ++ tr ++ [notified new; notify_notifications])%list.
Proof.
  apply (Notify_replaces_after_close sample_platform sample_world sample_world
           (repeat sample_world 4) (sample_call 1)
           (snd (Notify sample_platform sample_world (sample_call 0)
                   (fresh_service false 3))) 0%nat).
  - apply sample_state_reachable.
  - simpl. lia.
  - reflexivity.
  - vm_compute. reflexivity.
  - exists 0%nat. reflexivity.
  - left. reflexivity.
  - vm_compute. discriminate.
  - vm_compute. reflexivity.
Defined.

(** C2, counterexample.  With [max_popups_count = 0] and [dnd] off, one
    [Notify] on a fresh service leaves a popup, which stays when the loop
    has delivered every signal: the popup list is not empty and is longer
    than [max_popups_count].  With [max_popups_count = 3] and three popups
    on the screen, right after a fourth [Notify] the list holds four
    entries; the one dismissed leaves it when its "dismissed" signal is
    delivered.  And a list that is over the limit stays over it: with
    three popups and [max_popups_count] lowered to 1, a [Notify] dismisses
    one popup and shows one, so that three notifications are popups
    afterwards. *)
Lemma Notify_popups_over_limit_counterexample :
  (let s := fresh_service false 0 in
   let s' := snd (Notify sample_platform sample_world (sample_call 0) s) in
   reachable sample_platform s /\
   max_popups_count s' = 0 /\
   popups s' = [0%nat] /\ shown_popups s' = [0%nat] /\
   popups (settle sample_world s') = [0%nat] /\
   ~ (Z.of_nat (length (popups s')) <= max_popups_count s')) /\
  (let s := settle sample_world
              (snd (Notify_all sample_platform (sample_calls 3)
                      (fresh_service false 3))) in
   let s' := snd (Notify sample_platform sample_world (sample_call 0) s) in
   reachable sample_platform s /\
   pending s = [] /\ popups s = [0%nat; 1%nat; 2%nat] /\
   max_popups_count s' = 3 /\
   popups s' = [0%nat; 1%nat; 2%nat; 3%nat] /\
   ~ (Z.of_nat (length (popups s')) <= max_popups_count s')) /\
  (let s := set_max_popups_count 1
              (settle sample_world
                 (snd (Notify_all sample_platform (sample_calls 3)
                         (fresh_service false 3)))) in
   let s' := settle sample_world
               (snd (Notify sample_platform sample_world (sample_call 0) s)) in
   reachable sample_platform s /\
   popups s = [0%nat; 1%nat; 2%nat] /\
   max_popups_count s' = 1 /\ pending s' = [] /\
   popups s' = [0%nat; 1%nat; 3%nat] /\ shown_popups s' = [0%nat; 1%nat; 3%nat] /\
   ~ (Z.of_nat (length (shown_popups s')) <= max_popups_count s')).
Proof.
  split; [|split].
  - split; [apply reachable_init|].
    vm_compute. repeat split; try reflexivity. intros H. apply H. reflexivity.
  - split; [apply three_popups_reachable|].
    vm_compute. repeat split; try reflexivity. intros H. apply H. reflexivity.
  - split.
    { apply (reachable_step sample_platform sample_world (do_set_max_popups_count 1)).
      apply three_popups_reachable. }
    vm_compute. repeat split; try reflexivity. intros H. apply H. reflexivity.
Qed.

Lemma Notify_keeps_popups_within_limit_witness :
  let s := settle sample_world
             (snd (Notify_all sample_platform (sample_calls 3)
                     (fresh_service false 3))) in
  let s' := snd (Notify sample_platform sample_world (sample_call 0) s) in
  Z.of_nat (length (shown_popups s')) <= max_popups_count s' /\
  Z.of_nat (length (popups s')) <= max_popups_count s' + 1 /\
  max_popups_count s' = max_popups_count s.
Proof.
  apply (Notify_keeps_popups_within_limit sample_platform sample_world (sample_call 0)
           (settle sample_world
              (snd (Notify_all sample_platform (sample_calls 3)
                      (fresh_service false 3))))).
  - reflexivity.
  - vm_compute. discriminate.
Defined.

(** C3, the code at the failing input.  With [max_popups_count = 3], four
    [Notify] calls reply 1, 2, 3, 4.  The fourth dismisses notification 3,
    the newest popup, not notification 1, the oldest: right after the
    call notification 3 is no popup any more and its "dismissed" signal
    has been emitted, once, while notification 1 is a popup still.  When
    the loop has delivered the signals, the popup list holds the
    notifications 1, 2 and 4, and it goes from the oldest to the newest. *)
Theorem fourth_Notify_dismisses_newest_popup :
  let run := Notify_all sample_platform (sample_calls 4) (fresh_service false 3) in
  let s := snd run in
  let s' := settle sample_world s in
  fst run = [1; 2; 3; 4] /\
  popup 2 s = false /\ popup 0 s = true /\
  count_dismissed 2 (emitted s) = 1%nat /\
  count_dismissed 0 (emitted s) = 0%nat /\
  shown_popups s = [0%nat; 1%nat; 3%nat] /\
  PyDict.keys (_notifications s) = [KInt 1; KInt 2; KInt 3; KInt 4] /\
  pending s' = [] /\
  PyDict.keys (_popups s') = [KInt 1; KInt 2; KInt 4] /\
  popups s' = [0%nat; 1%nat; 3%nat] /\
  count_dismissed 2 (emitted s') = 1%nat /\
  count_dismissed 0 (emitted s') = 0%nat /\
  popup 2 s' = false /\ popup 0 s' = true /\
  PyDict.keys (_notifications s') = [KInt 1; KInt 2; KInt 3; KInt 4].
Proof. vm_compute. repeat split; reflexivity. Qed.

(** C4, the code at the failing input.  The cache file holds a well-formed
    record followed by a number.  The loader builds the first notification,
    fails on the second, logs the warning and rewrites the file to the
    empty form; the first notification stays in the collection, so the
    store in memory is not the empty one. *)
Theorem load_keeps_records_before_the_corrupt_one :
  let s := NotificationService_init sample_platform false 5000 3
             (Some half_corrupt_file) [] in
  map Notification._id (notification_objects s) = [JInt 1] /\
  PyDict.keys (_notifications s) = [KInt 1] /\
  _id s = JInt 0 /\
  cache_file s = Some NOTIFICATIONS_EMPTY_CACHE_FILE /\
  emitted s = [logger_warning].
Proof. vm_compute. repeat split; reflexivity. Qed.

Lemma load_after_sync_roundtrip_witness :
  let calls := [(sample_world, sample_call 0); (sample_world, image_call)] in
  let s := snd (Notify_all sample_platform calls (fresh_service false 3)) in
  let s' := NotificationService_init sample_platform true 1000 1
              (cache_file (sync s)) [] in
  _id s' = _id s /\
  map persisted (notification_objects s') = map persisted (notification_objects s) /\
  cache_file s' = cache_file (sync s) /\
  emitted s' = [] /\ pending s' = [] /\ popups s' = [].
Proof.
  apply (load_after_sync_roundtrip sample_platform
           (snd (Notify_all sample_platform
                   [(sample_world, sample_call 0); (sample_world, image_call)]
                   (fresh_service false 3))) true 1000 1 []).
  - vm_compute. repeat constructor; discriminate.
  - vm_compute. apply NoDup_cons. split; [|apply NoDup_singleton].
    intros Hin. apply list_elem_of_In in Hin. destruct Hin as [Hin|[]]. discriminate.
Defined.

Lemma Notify_ids_strictly_increasing_witness :
  let calls := [(sample_world, sample_call 0); (sample_world, image_call);
                (sample_world, sample_call 0)] in
  let s := fresh_service false 3 in
  StronglySorted Z.lt (fst (Notify_all sample_platform calls s)) /\
  NoDup (fst (Notify_all sample_platform calls s)) /\
  (forall c, as_int (_id s) = Some c ->
     Forall (fun id => c < id) (fst (Notify_all sample_platform calls s)) /\
     exists c', as_int (_id (snd (Notify_all sample_platform calls s))) = Some c' /\
                c <= c') /\
  (as_int (_id s) = None -> Notify_all sample_platform calls s = ([], s)) /\
  (forall w o s0 c, as_int (_id s0) = Some c ->
     exists c', as_int (_id (step sample_platform w o s0)) = Some c' /\ c <= c').
Proof.
  apply (Notify_ids_strictly_increasing sample_platform).
  - repeat constructor.
  - reflexivity.
Defined.

(** C7, counterexample.  [app_icon] is "firefox", not empty, and the hints
    carry image data: the notification built has the path of the image
    file as its icon, not "firefox". *)
Lemma Notify_icon_counterexample :
  let s' := snd (Notify sample_platform sample_world image_call (fresh_service false 3)) in
  app_icon image_call = "firefox" /\
  fst (Notify sample_platform sample_world image_call (fresh_service false 3)) =
    Returned 1 /\
  get_notification 1 s' = Some 0%nat /\
  (Notification._icon <$> objects s' !! 0%nat) =
    Some (JStr "/home/user/.cache/ignis/notifications/images/1") /\
  (Notification._icon <$> objects s' !! 0%nat) <> Some (JStr (app_icon image_call)).
Proof. vm_compute. repeat split; try reflexivity. discriminate. Qed.

Lemma Notify_icon_witness :
  let s' := snd (Notify sample_platform sample_world image_call (fresh_service false 3)) in
  exists idv k r n,
    pack_u sample_platform idv = Returned 1 /\
    ((replaces_id image_call = 0 -> is_float (_id (fresh_service false 3)) = false) ->
     idv = JInt 1) /\
    hash_key idv = Some k /\ PyDict.get k (_notifications s') = Some r /\
    objects s' !! r = Some n /\ Notification._id n = idv /\
    Notification._icon n =
      JStr (NOTIFICATIONS_IMAGE_DATA sample_platform +:+ "/" +:+
            py_str sample_platform idv) /\
    read_image (NOTIFICATIONS_IMAGE_DATA sample_platform +:+ "/" +:+
                py_str sample_platform idv) (images s') = Some sample_image.
Proof.
  apply (Notify_icon sample_platform sample_world image_call (fresh_service false 3) 1).
  - vm_compute. reflexivity.
  - left. reflexivity.
Defined.

Lemma CloseNotification_unknown_id_noop_witness :
  let s := snd (Notify sample_platform sample_world (sample_call 0)
                  (fresh_service false 3)) in
  CloseNotification 7 s = s /\
  emitted (CloseNotification 7 s) = emitted s /\
  pending (CloseNotification 7 s) = pending s /\
  _notifications (CloseNotification 7 s) = _notifications s /\
  _popups (CloseNotification 7 s) = _popups s /\
  cache_file (CloseNotification 7 s) = cache_file s.
Proof.
  apply (CloseNotification_unknown_id_noop 7).
  vm_compute. intros [H|[]]. discriminate.
Defined.

(** C9, counterexample.  Under [dnd] the notification that [Notify] builds
    is no popup; it is in the collection, and two calls of [dismiss] on it
    emit "dismissed" not once but never. *)
Lemma dismiss_twice_counterexample :
  let s := snd (Notify sample_platform sample_world (sample_call 0)
                  (fresh_service true 3)) in
  get_notification 1 s = Some 0%nat /\
  popup 0 s = false /\
  count_dismissed 0 (emitted s) = 0%nat /\
  count_dismissed 0 (emitted (Notification_dismiss 0 (Notification_dismiss 0 s))) = 0%nat /\
  count_dismissed 0 (emitted (Notification_dismiss 0 (Notification_dismiss 0 s))) <>
    (count_dismissed 0 (emitted s) + 1)%nat.
Proof. vm_compute. repeat split; try reflexivity. discriminate. Qed.
